(** * HappyRobotFrontend: the dashboard's derivation pipeline and the log proxy

    A shallow embedding of the [Dashboard] page component (its [useMemo]
    blocks [filteredLogs], [stats] and [chartData]) and of the Express route
    that [registerRoutes] installs, with the properties of the analytics
    pipeline stated over it.

    Conventions.
    - A JavaScript [number] is an IEEE-754 binary64 value: Rocq's primitive
      [float].  Array lengths and occurrence counts are natural numbers (they
      stay far below 2^53, where the two coincide); a length used as a
      divisor is converted with [Number].
    - A JavaScript string is a [string]: the UTF-8 encoding of well-formed
      text, on which the substring tests of the page agree with those on
      UTF-16 code units.  [toLowerCase] and [toUpperCase] are the ASCII
      mappings on ASCII text and the engine's Unicode mappings, which are
      parameters, on any other text.
    - A plain object used as a dictionary is an association list in insertion
      order ([Obj]), which is the order [Object.entries] and [Object.values]
      enumerate for keys that are not array indices.
    - A thrown exception is [None]. *)

From Stdlib Require Import String Ascii List Bool Arith ZArith Lia.
From Stdlib Require Import Sorting.Permutation Sorting.Sorted.
From Stdlib Require Import Floats.PrimFloat Numbers.Cyclic.Int63.Uint63.
From Stdlib Require Import Numbers.DecimalString.
Import ListNotations.

Set Warnings "-inexact-float,-register-all".

(* ================================================================== *)
(** ** The JavaScript runtime the page relies on *)
(* ================================================================== *)

Module JS.

(** *** Numbers *)

(** [n] as a [number], for an array length [n]. *)
Definition Number (n : nat) : float :=
  PrimFloat.of_uint63 (Uint63.of_Z (Z.of_nat n)).

(** *** Strings *)

Definition lowerAscii (c : ascii) : ascii :=
  let n := nat_of_ascii c in
  if (65 <=? n) && (n <=? 90) then ascii_of_nat (n + 32) else c.

Definition upperAscii (c : ascii) : ascii :=
  let n := nat_of_ascii c in
  if (97 <=? n) && (n <=? 122) then ascii_of_nat (n - 32) else c.

Fixpoint asciiLower (s : string) : string :=
  match s with
  | EmptyString => EmptyString
  | String c s' => String (lowerAscii c) (asciiLower s')
  end.

Fixpoint asciiUpper (s : string) : string :=
  match s with
  | EmptyString => EmptyString
  | String c s' => String (upperAscii c) (asciiUpper s')
  end.

Definition isAsciiChar (c : ascii) : bool := nat_of_ascii c <? 128.

Fixpoint isAscii (s : string) : bool :=
  match s with
  | EmptyString => true
  | String c s' => isAsciiChar c && isAscii s'
  end.

(** [s.toLowerCase()].  On text that is all ASCII it maps the letters A-Z
    and nothing else.  On any other text it follows the Unicode tables of
    the engine (one character may become several, a capital sigma becomes a
    final or a medial sigma by its context): the page is modelled over any
    such mapping, [Unicode_toLowerCase]. *)
Section LowerCase.
Variable Unicode_toLowerCase : string -> string.

Definition toLowerCase (s : string) : string :=
  if isAscii s then asciiLower s else Unicode_toLowerCase s.
End LowerCase.

(** [s.toUpperCase()], in the same way. *)
Section UpperCase.
Variable Unicode_toUpperCase : string -> string.

Definition toUpperCase (s : string) : string :=
  if isAscii s then asciiUpper s else Unicode_toUpperCase s.
End UpperCase.

(** The lower-casing of text made of the Greek capital letters Α to Ω and
    of ASCII letters, digits and spaces, as every engine computes it: a
    capital sigma after a letter and not before one becomes a final sigma,
    any other one a medial sigma.  It serves as the engine in the examples. *)
Definition isAsciiLetter (c : ascii) : bool :=
  let n := nat_of_ascii c in
  ((65 <=? n) && (n <=? 90)) || ((97 <=? n) && (n <=? 122)).

(** The bytes 206 and 207 lead the letters of the Greek block. *)
Definition isGreekLead (c : ascii) : bool :=
  let n := nat_of_ascii c in (n =? 206) || (n =? 207).

Definition startsCased (s : string) : bool :=
  match s with
  | EmptyString => false
  | String c _ => isAsciiLetter c || isGreekLead c
  end.

Definition isContinuation (c : ascii) : bool :=
  let n := nat_of_ascii c in (128 <=? n) && (n <=? 191).

Fixpoint greekLower (afterCased : bool) (s : string) : string :=
  match s with
  | EmptyString => EmptyString
  | String a s' =>
      match s' with
      | String b rest =>
          let n := nat_of_ascii b in
          if (nat_of_ascii a =? 206) && (145 <=? n) && (n <=? 169) && negb (n =? 162) then
            if n =? 163 then
              String (ascii_of_nat 207)
                (String (ascii_of_nat (if afterCased && negb (startsCased rest)
                                       then 130 else 131))
                   (greekLower true rest))
            else if n <=? 159 then
              String a (String (ascii_of_nat (n + 32)) (greekLower true rest))
            else
              String (ascii_of_nat 207)
                (String (ascii_of_nat (n - 32)) (greekLower true rest))
          else
            String (lowerAscii a)
              (greekLower (if isContinuation a then afterCased
                           else isAsciiLetter a || isGreekLead a) s')
      | EmptyString => String (lowerAscii a) EmptyString
      end
  end.

Definition Unicode_sample (s : string) : string := greekLower false s.

(** The first character of a string and the rest of it: [s.charAt(0)] and
    [s.slice(1)], when that character is in the Basic Multilingual Plane
    (one to three bytes). *)
Definition firstWidth (c : ascii) : nat :=
  let n := nat_of_ascii c in
  if n <? 192 then 1 else if n <? 224 then 2 else 3.

Definition charAt0 (s : string) : string :=
  match s with
  | EmptyString => EmptyString
  | String c _ => substring 0 (firstWidth c) s
  end.

Definition slice1 (s : string) : string :=
  match s with
  | EmptyString => EmptyString
  | String c _ => substring (firstWidth c) (String.length s - firstWidth c) s
  end.

(** Whether the first character lies outside that plane: then [s.charAt(0)]
    is half of a surrogate pair, which no case mapping changes. *)
Definition startsAstral (s : string) : bool :=
  match s with
  | EmptyString => false
  | String c _ => 240 <=? nat_of_ascii c
  end.

(** [s.startsWith(t)] *)
Fixpoint startsWith (s t : string) {struct t} : bool :=
  match t, s with
  | EmptyString, _ => true
  | String _ _, EmptyString => false
  | String b t', String a s' => Ascii.eqb a b && startsWith s' t'
  end.

(** [s.includes(t)]: [t] occurs in [s] at some position. *)
Fixpoint includes (s t : string) : bool :=
  startsWith s t ||
  match s with
  | EmptyString => false
  | String _ s' => includes s' t
  end.

(** [s.replace(a, b)] for one-character strings [a] and [b]: only the first
    occurrence is replaced. *)
Fixpoint replace (s : string) (a b : ascii) : string :=
  match s with
  | EmptyString => EmptyString
  | String c s' => if Ascii.eqb c a then String b s' else String c (replace s' a b)
  end.

(** [!s] for a string: only the empty string is falsy. *)
Definition falsy (s : string) : bool :=
  match s with
  | EmptyString => true
  | String _ _ => false
  end.

(** *** Objects used as dictionaries *)

Definition Obj (V : Type) : Type := list (string * V).

(** [acc[k]] *)
Fixpoint get {V} (acc : Obj V) (k : string) : option V :=
  match acc with
  | [] => None
  | (k', v) :: rest => if String.eqb k' k then Some v else get rest k
  end.

(** [acc[k] = v]: an existing property keeps its place, a new one goes last. *)
Fixpoint set {V} (acc : Obj V) (k : string) (v : V) : Obj V :=
  match acc with
  | [] => [(k, v)]
  | (k', v') :: rest =>
      if String.eqb k' k then (k', v) :: rest else (k', v') :: set rest k v
  end.

(** [Object.entries(acc)] and [Object.values(acc)] *)
Definition entries {V} (acc : Obj V) : list (string * V) := acc.
Definition values {V} (acc : Obj V) : list V := map snd acc.

(** A canonical array index ("0", "17", ...): such keys would be enumerated
    first, in numeric order.  None of the keys of this page is one. *)
Definition isDigit (c : ascii) : bool :=
  let n := nat_of_ascii c in (48 <=? n) && (n <=? 57).

Fixpoint allDigits (s : string) : bool :=
  match s with
  | EmptyString => true
  | String c s' => isDigit c && allDigits s'
  end.

Definition isArrayIndex (s : string) : bool :=
  negb (falsy s) && allDigits s.

(** *** Arrays *)

(** [xs.slice(-n)]: the last [n] elements (all of them when there are fewer). *)
Definition slice_last {A} (n : nat) (xs : list A) : list A :=
  skipn (length xs - n) xs.

(** [xs.sort(compareFn)].  The sort is stable, so for a consistent comparator
    its result is the one of a stable insertion sort; a [NaN] returned by the
    comparator counts as [0]. *)
Section Sort.
Context {A : Type} (compareFn : A -> A -> Z).

Fixpoint insert (x : A) (xs : list A) : list A :=
  match xs with
  | [] => [x]
  | y :: ys => if (compareFn x y <=? 0)%Z then x :: y :: ys else y :: insert x ys
  end.

Definition sort (xs : list A) : list A := fold_right insert [] xs.
End Sort.

(** *** Dates

    A time value is a number of milliseconds since the epoch, in UTC.  What
    [new Date(s)] makes of an arbitrary string is left to the engine, so the
    page is modelled over any parser (see [Dashboard]); the calendar that
    [toISOString] prints is fixed by the language and is modelled here. *)

Local Open Scope Z_scope.

Definition msPerDay : Z := 86400000.

(** [Day(t)]: the day number of a time value. *)
Definition Day (t : Z) : Z := t / msPerDay.

(** Year, month (1..12) and day of the month (1..31) of a day number, in the
    proleptic Gregorian calendar. *)
Definition civilFromDays (day : Z) : Z * Z * Z :=
  let z := day + 719468 in
  let era := z / 146097 in
  let doe := z - era * 146097 in
  let yoe := (doe - doe / 1460 + doe / 36524 - doe / 146096) / 365 in
  let doy := doe - (365 * yoe + yoe / 4 - yoe / 100) in
  let mp := (5 * doy + 2) / 153 in
  let d := doy - (153 * mp + 2) / 5 + 1 in
  let m := if mp <? 10 then mp + 3 else mp - 9 in
  let y := yoe + era * 400 + (if m <=? 2 then 1 else 0) in
  (y, m, d).

(** The day number of a calendar date. *)
Definition daysFromCivil (y m d : Z) : Z :=
  let y' := if m <=? 2 then y - 1 else y in
  let era := y' / 400 in
  let yoe := y' - era * 400 in
  let doy := (153 * (if 2 <? m then m - 3 else m + 9) + 2) / 5 + d - 1 in
  let doe := yoe * 365 + yoe / 4 - yoe / 100 + doy in
  era * 146097 + doe - 719468.

Definition digitChar (d : Z) : ascii := ascii_of_nat (48 + Z.to_nat d).

(** The last [w] decimal digits of [n], zero-padded. *)
Fixpoint padDigits (w : nat) (n : Z) : string :=
  match w with
  | O => EmptyString
  | S w' => (padDigits w' (n / 10) ++ String (digitChar (n mod 10)) EmptyString)%string
  end.

(** Years 0..9999 print with four digits, the others with a sign and six. *)
Definition yearString (y : Z) : string :=
  if (0 <=? y) && (y <=? 9999) then padDigits 4 y
  else ((if (y <? 0)%Z then "-" else "+") ++ padDigits 6 (Z.abs y))%string.

(** The date of a day number, as [toISOString] prints it. *)
Definition isoDateOfDay (day : Z) : string :=
  let '(y, m, d) := civilFromDays day in
  (yearString y ++ "-" ++ padDigits 2 m ++ "-" ++ padDigits 2 d)%string.

(** [new Date(t).toISOString().split('T')[0]] for a valid time value [t]. *)
Definition toISODate (t : Z) : string := isoDateOfDay (Day t).

(** The ISO-8601 forms [YYYY-MM-DD], [YYYY-MM-DDTHH:mm:ssZ] and
    [YYYY-MM-DDTHH:mm:ss.sssZ] as every engine's [Date.parse] reads them (a
    date alone is midnight UTC).  Any other string is taken to be an invalid
    date here; this parser serves as the engine in the examples. *)
Fixpoint digitsValue (s : string) (acc : Z) : Z :=
  match s with
  | EmptyString => acc
  | String c s' => digitsValue s' (10 * acc + (Z.of_nat (nat_of_ascii c) - 48))
  end.

Definition field (s : string) (start len : nat) : option Z :=
  let f := substring start len s in
  if Nat.eqb (String.length f) len && allDigits f then Some (digitsValue f 0) else None.

Definition sep (s : string) (pos : nat) (c : string) : bool :=
  String.eqb (substring pos 1 s) c.

Definition parseDatePart (s : string) : option Z :=
  match field s 0 4, field s 5 2, field s 8 2 with
  | Some y, Some m, Some d =>
      if sep s 4 "-" && sep s 7 "-" && (1 <=? m) && (m <=? 12) && (1 <=? d) && (d <=? 31)
      then Some (msPerDay * daysFromCivil y m d) else None
  | _, _, _ => None
  end.

Definition parseTimePart (s : string) : option Z :=
  match field s 11 2, field s 14 2, field s 17 2 with
  | Some h, Some mi, Some sec =>
      if sep s 10 "T" && sep s 13 ":" && sep s 16 ":" && (h <=? 23) && (mi <=? 59) && (sec <=? 59)
      then Some (3600000 * h + 60000 * mi + 1000 * sec) else None
  | _, _, _ => None
  end.

Definition Date_parse_iso (s : string) : option Z :=
  match parseDatePart s with
  | None => None
  | Some day =>
      match String.length s with
      | 10%nat => Some day
      | 20%nat =>
          match parseTimePart s with
          | Some ms => if sep s 19 "Z" then Some (day + ms) else None
          | None => None
          end
      | 24%nat =>
          match parseTimePart s, field s 20 3 with
          | Some ms, Some frac =>
              if sep s 19 "." && sep s 23 "Z" then Some (day + ms + frac) else None
          | _, _ => None
          end
      | _ => None
      end
  end.

Local Close Scope Z_scope.

End JS.

(* ================================================================== *)
(** ** The dashboard page: [filteredLogs], [stats] and [chartData] *)
(* ================================================================== *)

Module Dashboard.
Import JS.
Local Open Scope string_scope.
Local Open Scope list_scope.

(** *** Data model *)

Inductive Outcome : Set := Accepted | Declined | NoAgreement.
Inductive Sentiment : Set := Positive | Neutral | Negative.

(** The string literal each member of the union type stands for. *)
Definition Outcome_str (o : Outcome) : string :=
  match o with
  | Accepted => "accepted"
  | Declined => "declined"
  | NoAgreement => "no_agreement"
  end.

Definition Sentiment_str (s : Sentiment) : string :=
  match s with
  | Positive => "positive"
  | Neutral => "neutral"
  | Negative => "negative"
  end.

Record LogData : Set := {
  id : string;
  mc_number : string;
  load_id : string;
  final_rate : float;
  outcome : Outcome;
  sentiment : Sentiment;
  rounds : float;
  notes : string;
  created_at : string
}.

Definition OUTCOME_COLORS : Obj string :=
  [("accepted", "#10b981"); ("declined", "#ef4444"); ("no_agreement", "#f59e0b")].

Definition SENTIMENT_COLORS : Obj string :=
  [("positive", "#10b981"); ("neutral", "#6b7280"); ("negative", "#ef4444")].

(** *** [filteredLogs] *)

Section Search.
Variable Unicode_toLowerCase : string -> string.
#[local] Abbreviation toLowerCase := (JS.toLowerCase Unicode_toLowerCase).

Definition matchesSearch (searchTerm : string) (log : LogData) : bool :=
  includes (toLowerCase (mc_number log)) (toLowerCase searchTerm) ||
  includes (toLowerCase (load_id log)) (toLowerCase searchTerm) ||
  includes (toLowerCase (Outcome_str (outcome log))) (toLowerCase searchTerm) ||
  includes (toLowerCase (Sentiment_str (sentiment log))) (toLowerCase searchTerm).

Definition filteredLogs (logs : list LogData) (searchTerm : string) : list LogData :=
  if falsy searchTerm then logs
  else filter (matchesSearch searchTerm) logs.

End Search.

(** *** [stats] *)

Record Stats : Set := {
  accepted : nat;
  declined : nat;
  avgFinalRate : float;
  avgRounds : float
}.

Definition stats (logs : list LogData) : Stats :=
  if Nat.eqb (length logs) 0 then
    {| accepted := 0; declined := 0; avgFinalRate := 0%float; avgRounds := 0%float |}
  else
    {| accepted :=
         length (filter (fun log => Outcome_str (outcome log) =? "accepted") logs);
       declined :=
         length (filter (fun log => Outcome_str (outcome log) =? "declined") logs);
       avgFinalRate :=
         (fold_left (fun sum log => sum + final_rate log) logs 0 / Number (length logs))%float;
       avgRounds :=
         (fold_left (fun sum log => sum + rounds log) logs 0 / Number (length logs))%float |}.

(** *** [chartData] *)

Record ChartEntry : Set := {
  name : string;
  value : nat;
  color : option string
}.

(** [acc[k] || 0] *)
Definition orZero (v : option nat) : nat :=
  match v with
  | Some n => n
  | None => 0
  end.

(** [logs.reduce((acc, log) => { acc[key] = (acc[key] || 0) + 1; return acc }, {})] *)
Definition countBy (key : LogData -> string) (logs : list LogData) : Obj nat :=
  fold_left (fun acc log => set acc (key log) (orZero (get acc (key log)) + 1)) logs [].

Definition outcomeCounts (logs : list LogData) : Obj nat :=
  countBy (fun log => Outcome_str (outcome log)) logs.

Definition outcomeData (logs : list LogData) : list ChartEntry :=
  map (fun '(outcome, count) =>
         {| name := replace outcome "_" " ";
            value := count;
            color := get OUTCOME_COLORS outcome |})
      (entries (outcomeCounts logs)).

Definition sentimentCounts (logs : list LogData) : Obj nat :=
  countBy (fun log => Sentiment_str (sentiment log)) logs.

Definition sentimentData (logs : list LogData) : list ChartEntry :=
  map (fun '(sentiment, count) =>
         {| name := sentiment;
            value := count;
            color := get SENTIMENT_COLORS sentiment |})
      (entries (sentimentCounts logs)).

(** One property of [dailyRates]: [{ rates, date }]. *)
Module Bucket.
Record t : Set := { rates : list float; date : string }.
End Bucket.

Record TrendPoint : Set := {
  date : string;
  avgRate : float
}.

Record ChartData : Set := {
  cd_outcomeData : list ChartEntry;
  cd_sentimentData : list ChartEntry;
  cd_trendData : list TrendPoint
}.

(** [rates.reduce((sum, rate) => sum + rate, 0) / rates.length] *)
Definition average (rates : list float) : float :=
  (fold_left (fun sum rate => sum + rate) rates 0 / Number (length rates))%float.

Section Trend.

(** [new Date(s).getTime()]: [None] for an invalid date ([NaN]). *)
Variable Date_parse : string -> option Z.

(** One step of the [dailyRates] reduction.  [toISOString] throws a
    [RangeError] on an invalid date. *)
Definition dailyRates_step (acc : option (Obj Bucket.t)) (log : LogData)
  : option (Obj Bucket.t) :=
  match acc with
  | None => None
  | Some acc =>
      match Date_parse (created_at log) with
      | None => None
      | Some t =>
          let date := toISODate t in
          let acc :=
            match get acc date with
            | None => set acc date {| Bucket.rates := []; Bucket.date := date |}
            | Some _ => acc
            end in
          match get acc date with
          | None => None
          | Some b =>
              Some (set acc date {| Bucket.rates := Bucket.rates b ++ [final_rate log];
                                    Bucket.date := Bucket.date b |})
          end
      end
  end.

Definition dailyRates (logs : list LogData) : option (Obj Bucket.t) :=
  fold_left dailyRates_step logs (Some []).

(** [new Date(a.date).getTime() - new Date(b.date).getTime()] *)
Definition compareDates (a b : TrendPoint) : Z :=
  match Date_parse (date a), Date_parse (date b) with
  | Some x, Some y => (x - y)%Z
  | _, _ => 0%Z
  end.

Definition trendData (logs : list LogData) : option (list TrendPoint) :=
  match dailyRates logs with
  | None => None
  | Some acc =>
      Some (slice_last 7
              (sort compareDates
                 (map (fun b => {| date := Bucket.date b;
                                   avgRate := average (Bucket.rates b) |})
                      (values acc))))
  end.

Definition chartData (logs : list LogData) : option ChartData :=
  if Nat.eqb (length logs) 0 then
    Some {| cd_outcomeData := []; cd_sentimentData := []; cd_trendData := [] |}
  else
    match trendData logs with
    | None => None
    | Some trend =>
        Some {| cd_outcomeData := outcomeData logs;
                cd_sentimentData := sentimentData logs;
                cd_trendData := trend |}
    end.

End Trend.

End Dashboard.

(* ================================================================== *)
(** ** The server route [GET /api/logs] *)
(* ================================================================== *)

Module Proxy.
Local Open Scope string_scope.
Local Open Scope Z_scope.

Inductive Json : Type :=
| JNull
| JBool (b : bool)
| JNum (x : float)
| JStr (s : string)
| JArr (items : list Json)
| JObj (members : list (string * Json)).

(** What [fetch] resolved to.  [body] is the value [response.json()] resolves
    to, [None] when it rejects (the body is not JSON). *)
Record Response : Type := {
  status : Z;
  statusText : string;
  body : option Json
}.

(** The upstream call: [fetch] rejects, or resolves to a response. *)
Inductive Upstream : Type :=
| Rejected
| Resolved (response : Response).

(** [response.ok] *)
Definition ok (response : Response) : bool :=
  (200 <=? status response) && (status response <=? 299).

(** What the route sends: [res.status(code).json(payload)]. *)
Record Reply : Type := {
  code : Z;
  payload : Json
}.

(** [`${n}`] for an integer [n]. *)
Definition numberToString (n : Z) : string := NilZero.string_of_int (Z.to_int n).

Definition failureReply : Reply :=
  {| code := 500;
     payload := JObj [("message", JStr "Failed to fetch data from external API")] |}.

(** The handler of [app.get("/api/logs", ...)]: the [catch] block answers a
    rejected [fetch] and a rejected [response.json()]; [res.json(data)] sends
    with the default status 200. *)
Definition handler (upstream : Upstream) : Reply :=
  match upstream with
  | Rejected => failureReply
  | Resolved response =>
      if negb (ok response) then
        {| code := status response;
           payload :=
             JObj [("message",
                    JStr ("External API error: " ++ numberToString (status response)
                          ++ " " ++ statusText response))] |}
      else
        match body response with
        | None => failureReply
        | Some data => {| code := 200; payload := data |}
        end
  end.

End Proxy.

(* ================================================================== *)
(** ** Specification vocabulary *)
(* ================================================================== *)

Module Spec.
Import JS Dashboard.
Local Open Scope string_scope.
Local Open Scope list_scope.

(** [t] occurs in [s] as a substring. *)
Definition occursIn (t s : string) : Prop :=
  exists pre post, s = (pre ++ t ++ post)%string.

(** The lower-cased term occurs in the lower-cased value of one of the four
    searched fields. *)
Definition searchHit (Unicode_toLowerCase : string -> string)
  (term : string) (log : LogData) : Prop :=
  let toLowerCase := JS.toLowerCase Unicode_toLowerCase in
  occursIn (toLowerCase term) (toLowerCase (mc_number log)) \/
  occursIn (toLowerCase term) (toLowerCase (load_id log)) \/
  occursIn (toLowerCase term) (toLowerCase (Outcome_str (outcome log))) \/
  occursIn (toLowerCase term) (toLowerCase (Sentiment_str (sentiment log))).

(** The arithmetic mean of a sequence of numbers: their sum, taken from left
    to right, over their count. *)
Definition total (xs : list float) : float := fold_left PrimFloat.add xs 0%float.

Definition mean (xs : list float) : float := (total xs / Number (length xs))%float.

(** The distinct elements of a sequence, in the order of their first
    occurrence. *)
Definition firstOccurrences {A} (eqb : A -> A -> bool) (xs : list A) : list A :=
  fold_left (fun seen x => if existsb (eqb x) seen then seen else seen ++ [x]) xs [].

(** How many elements of a sequence satisfy a test. *)
Definition count {A} (p : A -> bool) (xs : list A) : nat :=
  fold_right (fun x n => if p x then S n else n) 0 xs.

(** The display form and the colour of each category. *)
Definition outcomeLabel (o : Outcome) : string :=
  match o with
  | Accepted => "accepted"
  | Declined => "declined"
  | NoAgreement => "no agreement"
  end.

Definition outcomeColor (o : Outcome) : string :=
  match o with
  | Accepted => "#10b981"
  | Declined => "#ef4444"
  | NoAgreement => "#f59e0b"
  end.

Definition Outcome_eqb (a b : Outcome) : bool :=
  match a, b with
  | Accepted, Accepted | Declined, Declined | NoAgreement, NoAgreement => true
  | _, _ => false
  end.

Definition Sentiment_eqb (a b : Sentiment) : bool :=
  match a, b with
  | Positive, Positive | Neutral, Neutral | Negative, Negative => true
  | _, _ => false
  end.

(** The sum of the counts of a chart table, and of a table of counters. *)
Definition totalCount (entries : list ChartEntry) : nat :=
  fold_right (fun e n => value e + n) 0 entries.

Definition sumValues (acc : Obj nat) : nat := fold_right (fun kv n => snd kv + n) 0 acc.

(** One step of an accumulation by key: the property of [x]'s key is
    updated from its former value, or created. *)
Definition groupStep {A V} (key : A -> string) (upd : option V -> A -> V)
  (acc : Obj V) (x : A) : Obj V :=
  set acc (key x) (upd (get acc (key x)) x).

(** A bucket after one more rate. *)
Definition addRate (b : option Bucket.t) (x : string * float) : Bucket.t :=
  match b with
  | None => {| Bucket.rates := [snd x]; Bucket.date := fst x |}
  | Some b => {| Bucket.rates := Bucket.rates b ++ [snd x]; Bucket.date := Bucket.date b |}
  end.

Section Dates.
Variable Date_parse : string -> option Z.

(** The UTC calendar date of a record, [None] when [created_at] is not a
    date. *)
Definition dateOf (log : LogData) : option string :=
  option_map toISODate (Date_parse (created_at log)).

Definition onDate (d : string) (log : LogData) : bool :=
  match dateOf log with
  | Some d' => d' =? d
  | None => false
  end.

(** The records as (date, rate) pairs, when every [created_at] is a date. *)
Definition datedRates (logs : list LogData) : option (list (string * float)) :=
  fold_right
    (fun log rest =>
       match Date_parse (created_at log), rest with
       | Some t, Some rest => Some ((toISODate t, final_rate log) :: rest)
       | _, _ => None
       end)
    (Some []) logs.

(** Every [created_at] is a date, and the engine reads the date it prints
    for it back as midnight UTC of that day, as the language requires of the
    date-only form. *)
Definition conforms (log : LogData) : bool :=
  match Date_parse (created_at log) with
  | None => false
  | Some t =>
      match Date_parse (toISODate t) with
      | None => false
      | Some t' => (t' =? msPerDay * Day t)%Z
      end
  end.

Definition datesConform (logs : list LogData) : bool := forallb conforms logs.

(** The time value of a trend point's date. *)
Definition timeOf (p : TrendPoint) : Z :=
  match Date_parse (date p) with
  | Some t => t
  | None => 0%Z
  end.

(** Calendar order on date strings. *)
Definition dateLt (d1 d2 : string) : Prop :=
  exists t1 t2, Date_parse d1 = Some t1 /\ Date_parse d2 = Some t2 /\ (t1 < t2)%Z.

Definition dateLe (d1 d2 : string) : Prop :=
  exists t1 t2, Date_parse d1 = Some t1 /\ Date_parse d2 = Some t2 /\ (t1 <= t2)%Z.

End Dates.

End Spec.

(* ================================================================== *)
(** ** The rest of the page: the query, the axis labels and the table *)
(* ================================================================== *)

Module Page.
Import JS Dashboard.
Local Open Scope string_scope.
Local Open Scope list_scope.

(** Why [queryFn] rejected: [fetch] rejected (the engine's error), the
    [Error] the function throws itself on a response that is not [ok], or
    [response.json()] rejected. *)
Inductive QueryError : Type :=
| FetchRejected
| HttpError (message : string)
| JsonRejected.

(** [queryFn]: the page's own request to the external API. *)
Definition queryFn (upstream : Proxy.Upstream) : QueryError + Proxy.Json :=
  match upstream with
  | Proxy.Rejected => inl FetchRejected
  | Proxy.Resolved response =>
      if negb (Proxy.ok response) then
        inl (HttpError ("Failed to fetch logs: "
                        ++ Proxy.numberToString (Proxy.status response)
                        ++ " " ++ Proxy.statusText response))
      else
        match Proxy.body response with
        | None => inl JsonRejected
        | Some data => inr data
        end
  end.

(** The tick formatter of the sentiment axis:
    [value.charAt(0).toUpperCase() + value.slice(1)]. *)
Definition tickFormatter (Unicode_toUpperCase : string -> string) (value : string)
  : string :=
  if startsAstral value then value
  else toUpperCase Unicode_toUpperCase (charAt0 value) ++ slice1 value.

Section Table.
Variable Unicode_toLowerCase : string -> string.
#[local] Abbreviation filteredLogs := (Dashboard.filteredLogs Unicode_toLowerCase).

(** The body of the table: one row for each record of [filteredLogs] (keyed
    by [log.id]), or a single cell with a message when there is none. *)
Inductive TableBody : Set :=
| Message (text : string)
| Rows (logs : list LogData).

Definition tableBody (logs : list LogData) (searchTerm : string) : TableBody :=
  if Nat.eqb (length (filteredLogs logs searchTerm)) 0 then
    Message (if negb (falsy searchTerm) then "No logs found matching your search."
             else "No logs available.")
  else Rows (filteredLogs logs searchTerm).

(** The footer under the table: "Showing 1 to [showingTo] of [total]
    results", and whether the Next button is disabled. *)
Record Footer : Set := {
  showingTo : nat;
  total : nat;
  nextDisabled : bool
}.

Definition footer (logs : list LogData) (searchTerm : string) : option Footer :=
  if (0 <? length (filteredLogs logs searchTerm))%nat then
    Some {| showingTo := Nat.min (length (filteredLogs logs searchTerm)) 50;
            total := length (filteredLogs logs searchTerm);
            nextDisabled := (length (filteredLogs logs searchTerm) <=? 50)%nat |}
  else None.

End Table.

(** The proxy's answer as a client's [fetch] receives it; [reason] is the
    status text the server attaches to the code. *)
Definition proxied (upstream : Proxy.Upstream) (reason : string) : Proxy.Upstream :=
  Proxy.Resolved
    {| Proxy.status := Proxy.code (Proxy.handler upstream);
       Proxy.statusText := reason;
       Proxy.body := Some (Proxy.payload (Proxy.handler upstream)) |}.

End Page.

Module PageSpec.
Import JS Dashboard Spec.
Local Open Scope string_scope.
Local Open Scope list_scope.

Definition sentimentColor (s : Sentiment) : string :=
  match s with
  | Positive => "#10b981"
  | Neutral => "#6b7280"
  | Negative => "#ef4444"
  end.

(** The entry of a category in its distribution table. *)
Definition outcomeEntry (logs : list LogData) (o : Outcome) : ChartEntry :=
  {| name := outcomeLabel o;
     value := count (fun log => Outcome_eqb (outcome log) o) logs;
     color := Some (outcomeColor o) |}.

Definition sentimentEntry (logs : list LogData) (s : Sentiment) : ChartEntry :=
  {| name := Sentiment_str s;
     value := count (fun log => Sentiment_eqb (sentiment log) s) logs;
     color := Some (sentimentColor s) |}.

(** The count a chart table shows under a name, 0 when it has no such entry. *)
Fixpoint valueOf (label : string) (entries : list ChartEntry) : nat :=
  match entries with
  | [] => 0
  | e :: rest => if name e =? label then value e else valueOf label rest
  end.

(** The characters the names of the categories are made of. *)
Definition categoryChar (c : ascii) : bool :=
  let n := nat_of_ascii c in
  ((97 <=? n) && (n <=? 122) || (n =? 95))%nat.

Fixpoint chars (s : string) : list ascii :=
  match s with
  | EmptyString => []
  | String c rest => c :: chars rest
  end.

End PageSpec.

(* ================================================================== *)
(** ** Sample data *)
(* ================================================================== *)

Module Samples.
Import JS Dashboard.
Local Open Scope string_scope.
Local Open Scope list_scope.

Definition record (n : string) (o : Outcome) (s : Sentiment) (rate : float) (at_ : string)
  : LogData :=
  {| id := n; mc_number := "MC123"; load_id := ("LD-" ++ n)%string; final_rate := rate;
     outcome := o; sentiment := s; rounds := 2%float; notes := "";
     created_at := at_ |}.

(** Three records with outcomes accepted, accepted, declined and rates 100,
    200, 300. *)
Definition scenarioA : list LogData :=
  [record "1" Accepted Positive 100 "2024-01-15T10:30:00Z";
   record "2" Accepted Neutral 200 "2024-01-16T08:00:00Z";
   record "3" Declined Negative 300 "2024-01-15T23:59:59.999Z"].

(** Ten records on nine distinct days, not in date order. *)
Definition scenarioC : list LogData :=
  [record "1" Accepted Positive 1800 "2024-01-15T10:30:00Z";
   record "2" Declined Negative 2200 "2024-01-10T09:00:00Z";
   record "3" Accepted Neutral 2000 "2024-01-15T23:59:59.999Z";
   record "4" NoAgreement Negative 1500.5 "2024-01-01T00:00:00Z";
   record "5" Accepted Positive 1750 "2024-01-02T12:00:00Z";
   record "6" Accepted Positive 1900 "2024-01-03T12:00:00Z";
   record "7" Declined Neutral 2100 "2024-01-04T12:00:00Z";
   record "8" Accepted Positive 1650 "2023-12-31T23:59:59Z";
   record "9" Accepted Positive 1700 "2024-01-06T12:00:00Z";
   record "10" NoAgreement Neutral 1600 "2024-01-07T12:00:00Z"].

(** Three accepted records whose rates are not binary fractions. *)
Definition ratesAscending : list LogData :=
  [record "1" Accepted Positive 1850.1 "2024-01-15T10:30:00Z";
   record "2" Accepted Positive 1999.3 "2024-01-16T10:30:00Z";
   record "3" Accepted Positive 2100.2 "2024-01-17T10:30:00Z"].

(** A record whose [mc_number] ends in a capital sigma. *)
Definition sigmaRecord : LogData :=
  {| id := "9"; mc_number := "ΟΔΟΣ"; load_id := "LD-9"; final_rate := 1800;
     outcome := Accepted; sentiment := Positive; rounds := 2%float; notes := "";
     created_at := "2024-01-15T10:30:00Z" |}.

(** Two records of one UTC day. *)
Definition scenarioDay : list LogData :=
  [record "1" Accepted Positive 1800 "2024-01-15T00:00:00Z";
   record "2" Declined Negative 2200 "2024-01-15T23:59:59.999Z"].

(** Sixty records with distinct ids, all accepted. *)
Fixpoint numbered (n : nat) : list LogData :=
  match n with
  | O => []
  | S n' =>
      record (NilZero.string_of_uint (Nat.to_uint n)) Accepted Positive 1800
             "2024-01-15T10:30:00Z" :: numbered n'
  end.

Definition sixty : list LogData := numbered 60.

(** Upstream answers: a 404 with a JSON error body, and a 201 with data. *)
Definition notFound : Proxy.Upstream :=
  Proxy.Resolved
    {| Proxy.status := 404; Proxy.statusText := "Not Found";
       Proxy.body := Some (Proxy.JObj [("error", Proxy.JStr "no logs")]) |}.

Definition created : Proxy.Upstream :=
  Proxy.Resolved
    {| Proxy.status := 201; Proxy.statusText := "Created";
       Proxy.body := Some (Proxy.JArr []) |}.

End Samples.

(* ================================================================== *)
(** ** Lemmas on the runtime model *)
(* ================================================================== *)

Module JSFacts.
Import JS Spec.
Local Open Scope string_scope.
Local Open Scope list_scope.

(** **** Strings and lists *)

Lemma startsWith_spec (s t : string) :
  startsWith s t = true <-> exists post, s = (t ++ post)%string.
Proof.
  revert s; induction t as [|b t IH]; intros s; simpl.
  - split; [intros _; now exists s | reflexivity].
  - destruct s as [|a s]; simpl.
    + split; [discriminate | intros [post H]; discriminate H].
    + rewrite andb_true_iff, Ascii.eqb_eq, IH. split.
      * intros [-> [post ->]]. now exists post.
      * intros [post H]. injection H as -> ->. split; [reflexivity | now exists post].
Qed.

Lemma includes_spec (s t : string) :
  includes s t = true <-> exists pre post, s = (pre ++ t ++ post)%string.
Proof.
  split.
  - induction s as [|a s IH]; simpl; rewrite orb_true_iff, startsWith_spec.
    + intros [[post H] | H]; [| discriminate H]. now exists EmptyString, post.
    + intros [[post H] | H]; [now exists EmptyString, post |].
      destruct (IH H) as (pre & post & ->). now exists (String a pre), post.
  - intros (pre & post & ->). induction pre as [|a pre IH]; simpl.
    + assert (H : startsWith (t ++ post) t = true)
        by (apply startsWith_spec; now exists post).
      destruct (t ++ post)%string; simpl in *; rewrite H; reflexivity.
    + rewrite IH. apply orb_true_r.
Qed.

Lemma falsy_spec (s : string) : falsy s = true <-> s = EmptyString.
Proof. destruct s; simpl; split; congruence. Qed.

Lemma filter_idempotent {A} (p : A -> bool) (xs : list A) :
  filter p (filter p xs) = filter p xs.
Proof.
  induction xs as [|x xs IH]; simpl; [reflexivity |].
  destruct (p x) eqn:E; simpl; [rewrite E, IH |]; auto.
Qed.

Lemma fold_left_add_map {A} (f : A -> float) (xs : list A) (a : float) :
  fold_left (fun sum x => (sum + f x)%float) xs a = fold_left PrimFloat.add (map f xs) a.
Proof. revert a; induction xs as [|x xs IH]; intros a; simpl; auto. Qed.

(** **** Dates *)

Example toISODate_samples :
  map toISODate [0; -1; 1705314600000; 1709164800000; 1709251200000;
                 253402300800000; -62167219200001; 8640000000000000;
                 -8640000000000000]%Z =
  ["1970-01-01"; "1969-12-31"; "2024-01-15"; "2024-02-29"; "2024-03-01";
   "+010000-01-01"; "-000001-12-31"; "+275760-09-13"; "-271821-04-20"].
Proof. vm_compute. reflexivity. Qed.

Example Date_parse_iso_samples :
  map Date_parse_iso ["2024-01-15T10:30:00Z"; "2024-01-15"; "2024-02-29T23:59:59.999Z";
                      "1970-01-01"; "yesterday"; ""] =
  [Some 1705314600000; Some 1705276800000; Some 1709251199999; Some 0; None; None]%Z.
Proof. vm_compute. reflexivity. Qed.

Lemma allDigits_hyphen (s1 s2 : string) :
  allDigits (s1 ++ String "-" s2)%string = false.
Proof.
  induction s1 as [|c s1 IH]; simpl; [reflexivity |].
  rewrite IH. apply andb_false_r.
Qed.

(** A date key is never an array index, so [Object.values(dailyRates)]
    enumerates the buckets in insertion order. *)
Lemma date_keys_not_indices (t : Z) : isArrayIndex (toISODate t) = false.
Proof.
  unfold isArrayIndex, toISODate, isoDateOfDay.
  destruct (civilFromDays (Day t)) as [[y m] d].
  change (yearString y ++ "-" ++ padDigits 2 m ++ "-" ++ padDigits 2 d)%string
    with (yearString y ++ String "-" (padDigits 2 m ++ "-" ++ padDigits 2 d))%string.
  rewrite allDigits_hyphen. apply andb_false_r.
Qed.

(** **** Counting *)

Lemma length_filter_count {A} (p : A -> bool) (xs : list A) :
  length (filter p xs) = count p xs.
Proof.
  induction xs as [|x xs IH]; simpl; [reflexivity |].
  destruct (p x); simpl; congruence.
Qed.

Lemma count_ext {A} (p q : A -> bool) (xs : list A) :
  (forall x, p x = q x) -> count p xs = count q xs.
Proof.
  intros H. induction xs as [|x xs IH]; simpl; [reflexivity |].
  rewrite H, IH. reflexivity.
Qed.

Lemma count_map {A B} (f : A -> B) (p : B -> bool) (xs : list A) :
  count (fun x => p (f x)) xs = count p (map f xs).
Proof. induction xs as [|x xs IH]; simpl; [reflexivity |]. now rewrite IH. Qed.

Lemma count_Permutation {A} (p : A -> bool) (xs ys : list A) :
  Permutation xs ys -> count p xs = count p ys.
Proof.
  induction 1 as [| x xs ys _ IH | x y xs | xs ys zs _ IH1 _ IH2]; simpl.
  - reflexivity.
  - now rewrite IH.
  - destruct (p x), (p y); reflexivity.
  - congruence.
Qed.

Lemma two_counts_le {A} (p q : A -> bool) (xs : list A) :
  (forall x, p x = true -> q x = false) -> count p xs + count q xs <= length xs.
Proof.
  intros H. induction xs as [|x xs IH]; simpl; [lia |].
  specialize (H x). destruct (p x), (q x);
    first [discriminate (H eq_refl) | lia].
Qed.

Lemma count_fold {A} (xs : list A) (ov : option nat) :
  fold_left (fun ov (_ : A) => Some (Dashboard.orZero ov + 1)) xs ov =
  match xs with
  | [] => ov
  | _ :: _ => Some (Dashboard.orZero ov + length xs)
  end.
Proof.
  revert ov. induction xs as [|x xs IH]; intros ov; simpl; [reflexivity |].
  rewrite IH. destruct xs; simpl; f_equal; lia.
Qed.

(** **** Objects *)

Section ObjFacts.
Context {V : Type}.
Implicit Types (acc : Obj V) (k : string) (v : V).

Lemma get_set_same acc k v : get (set acc k v) k = Some v.
Proof.
  induction acc as [|[k' v'] acc IH]; simpl.
  - now rewrite String.eqb_refl.
  - destruct (k' =? k) eqn:E; simpl; now rewrite E.
Qed.

Lemma get_set_other acc k k' v : (k =? k') = false -> get (set acc k v) k' = get acc k'.
Proof.
  intros N. induction acc as [|[k0 v0] acc IH]; simpl.
  - now rewrite N.
  - destruct (k0 =? k) eqn:E; simpl; [| now rewrite IH].
    apply String.eqb_eq in E. subst k0. now rewrite N.
Qed.

Lemma set_set acc k v v' : set (set acc k v) k v' = set acc k v'.
Proof.
  induction acc as [|[k0 v0] acc IH]; simpl.
  - now rewrite String.eqb_refl.
  - destruct (k0 =? k) eqn:E; simpl; rewrite E; [reflexivity | now rewrite IH].
Qed.

Lemma set_absent acc k v : get acc k = None -> set acc k v = acc ++ [(k, v)].
Proof.
  induction acc as [|[k0 v0] acc IH]; simpl; [reflexivity |].
  destruct (k0 =? k); [discriminate |]. intros H. now rewrite IH.
Qed.

Lemma keys_set acc k v :
  map fst (set acc k v) =
  if existsb (String.eqb k) (map fst acc) then map fst acc else map fst acc ++ [k].
Proof.
  induction acc as [|[k0 v0] acc IH]; simpl; [reflexivity |].
  rewrite (String.eqb_sym k k0). destruct (k0 =? k); simpl; [reflexivity |].
  rewrite IH. now destruct (existsb (String.eqb k) (map fst acc)).
Qed.

Lemma get_In acc k v : get acc k = Some v -> In (k, v) acc.
Proof.
  induction acc as [|[k0 v0] acc IH]; simpl; [discriminate |].
  destruct (k0 =? k) eqn:E; [| now right; apply IH].
  apply String.eqb_eq in E. intros H. injection H as ->. left. now subst.
Qed.

Lemma In_get acc k v : NoDup (map fst acc) -> In (k, v) acc -> get acc k = Some v.
Proof.
  induction acc as [|[k0 v0] acc IH]; simpl; [tauto |].
  intros D [H | H]; inversion D as [| ? ? N D']; subst.
  - injection H as -> ->. now rewrite String.eqb_refl.
  - destruct (k0 =? k) eqn:E; [| now apply IH].
    apply String.eqb_eq in E. subst k0. exfalso. apply N.
    now apply (in_map fst) in H.
Qed.

Lemma entries_of_get acc (f : string -> V) :
  NoDup (map fst acc) ->
  (forall k v, get acc k = Some v -> v = f k) ->
  acc = map (fun k => (k, f k)) (map fst acc).
Proof.
  intros D H.
  assert (G : forall k v, In (k, v) acc -> v = f k)
    by (intros k v I; apply H; now apply In_get).
  clear H D. induction acc as [|[k0 v0] acc IH]; simpl; [reflexivity |].
  rewrite <- IH by (intros k v I; apply G; now right).
  now rewrite (G k0 v0) by now left.
Qed.

End ObjFacts.

(** **** Distinct elements in order of first occurrence *)

Section FirstOccurrences.
Context {A : Type} (eqb : A -> A -> bool).
Hypothesis eqb_spec : forall a b, eqb a b = true <-> a = b.

Let step (seen : list A) (x : A) : list A :=
  if existsb (eqb x) seen then seen else seen ++ [x].

Lemma existsb_eqb_In (x : A) (seen : list A) :
  existsb (eqb x) seen = true <-> In x seen.
Proof.
  rewrite existsb_exists. split.
  - intros (y & I & E). apply eqb_spec in E. now subst.
  - intros I. exists x. split; [assumption | now apply eqb_spec].
Qed.

Lemma step_NoDup (seen : list A) (x : A) : NoDup seen -> NoDup (step seen x).
Proof.
  intros D. unfold step. destruct (existsb (eqb x) seen) eqn:E; [assumption |].
  apply NoDup_rev in D. rewrite <- (rev_involutive (seen ++ [x])).
  apply NoDup_rev. rewrite rev_app_distr. simpl. constructor; [| assumption].
  rewrite <- in_rev. intros I. apply existsb_eqb_In in I. congruence.
Qed.

Lemma step_In (seen : list A) (x y : A) : In y (step seen x) <-> In y seen \/ y = x.
Proof.
  unfold step. destruct (existsb (eqb x) seen) eqn:E.
  - apply existsb_eqb_In in E. split; [tauto | intros [I | ->]; assumption].
  - rewrite in_app_iff. simpl. intuition congruence.
Qed.

Lemma firsts_NoDup (xs seen : list A) : NoDup seen -> NoDup (fold_left step xs seen).
Proof.
  revert seen. induction xs as [|x xs IH]; intros seen D; simpl; [assumption |].
  apply IH, step_NoDup, D.
Qed.

Lemma firsts_In (xs seen : list A) (y : A) :
  In y (fold_left step xs seen) <-> In y seen \/ In y xs.
Proof.
  revert seen. induction xs as [|x xs IH]; intros seen; simpl; [tauto |].
  rewrite IH, step_In. intuition congruence.
Qed.

Lemma firstOccurrences_NoDup (xs : list A) : NoDup (firstOccurrences eqb xs).
Proof. apply firsts_NoDup. constructor. Qed.

Lemma firstOccurrences_In (xs : list A) (y : A) :
  In y (firstOccurrences eqb xs) <-> In y xs.
Proof.
  pose proof (firsts_In xs [] y) as H. unfold step in H. simpl in H.
  unfold firstOccurrences. tauto.
Qed.

End FirstOccurrences.

Lemma firsts_map {A B} (f : A -> B) (eqbA : A -> A -> bool) (eqbB : B -> B -> bool) :
  (forall a b, eqbB (f a) (f b) = eqbA a b) ->
  forall xs seen,
    fold_left (fun seen x => if existsb (eqbB x) seen then seen else seen ++ [x])
      (map f xs) (map f seen) =
    map f (fold_left (fun seen x => if existsb (eqbA x) seen then seen else seen ++ [x])
             xs seen).
Proof.
  intros H. induction xs as [|x xs IH]; intros seen; simpl; [reflexivity |].
  assert (E : existsb (eqbB (f x)) (map f seen) = existsb (eqbA x) seen).
  { clear IH. induction seen as [|y seen IHs]; simpl; [reflexivity |]. now rewrite H, IHs. }
  rewrite E. destruct (existsb (eqbA x) seen); [apply IH |].
  rewrite <- IH, map_app. reflexivity.
Qed.

(** **** Grouping by a key: the accumulation pattern of [chartData] *)

Section Grouping.
Context {A V : Type} (key : A -> string) (upd : option V -> A -> V).

Lemma group_keys (xs : list A) (acc : Obj V) :
  map fst (fold_left (groupStep key upd) xs acc) =
  fold_left (fun seen k => if existsb (String.eqb k) seen then seen else seen ++ [k])
    (map key xs) (map fst acc).
Proof.
  revert acc. induction xs as [|x xs IH]; intros acc; simpl; [reflexivity |].
  rewrite IH. unfold groupStep. now rewrite keys_set.
Qed.

Lemma group_get (xs : list A) (acc : Obj V) (k : string) :
  get (fold_left (groupStep key upd) xs acc) k =
  fold_left (fun ov x => Some (upd ov x)) (filter (fun x => key x =? k) xs) (get acc k).
Proof.
  revert acc. induction xs as [|x xs IH]; intros acc; simpl; [reflexivity |].
  rewrite IH. unfold groupStep. destruct (key x =? k) eqn:E; simpl.
  - apply String.eqb_eq in E. subst k. now rewrite get_set_same.
  - now rewrite get_set_other.
Qed.

Lemma group_NoDup (xs : list A) : NoDup (map fst (fold_left (groupStep key upd) xs [])).
Proof.
  rewrite group_keys. apply (firsts_NoDup String.eqb String.eqb_eq). constructor.
Qed.

End Grouping.

(** **** Sorting and slicing *)

Section SortFacts.
Context {A : Type} (compareFn : A -> A -> Z) (time : A -> Z).

Lemma insert_Permutation (x : A) (xs : list A) :
  Permutation (insert compareFn x xs) (x :: xs).
Proof.
  induction xs as [|y ys IH]; simpl; [reflexivity |].
  destruct (compareFn x y <=? 0)%Z; [reflexivity |].
  rewrite IH. apply perm_swap.
Qed.

Lemma sort_Permutation (xs : list A) : Permutation (sort compareFn xs) xs.
Proof.
  induction xs as [|x xs IH]; simpl; [reflexivity |].
  rewrite insert_Permutation. now constructor.
Qed.

Lemma insert_sorted (x : A) (xs : list A) :
  (forall y, In y xs -> compareFn x y = (time x - time y)%Z) ->
  StronglySorted (fun a b => (time a <= time b)%Z) xs ->
  StronglySorted (fun a b => (time a <= time b)%Z) (insert compareFn x xs).
Proof.
  intros C S. induction S as [|y ys S IH F]; simpl.
  - repeat constructor.
  - rewrite (C y) by now left.
    destruct (time x - time y <=? 0)%Z eqn:E.
    + apply Z.leb_le in E. constructor; [now constructor |].
      constructor; [lia |].
      eapply Forall_impl; [| exact F]. simpl. intros z Hz. lia.
    + apply Z.leb_gt in E. constructor.
      * apply IH. intros z Hz. apply C. now right.
      * apply (Permutation_Forall (Permutation_sym (insert_Permutation x ys))).
        constructor; [lia | exact F].
Qed.

Lemma sort_sorted (xs : list A) :
  (forall a b, In a xs -> In b xs -> compareFn a b = (time a - time b)%Z) ->
  StronglySorted (fun a b => (time a <= time b)%Z) (sort compareFn xs).
Proof.
  induction xs as [|x xs IH]; intros C; simpl; [constructor |].
  apply insert_sorted.
  - intros y Hy. apply C; [now left |].
    right. apply (Permutation_in _ (sort_Permutation xs) Hy).
  - apply IH. intros a b Ha Hb. apply C; now right.
Qed.

End SortFacts.

Lemma StronglySorted_weaken {A} (R R' : A -> A -> Prop) (xs : list A) :
  (forall a b, In a xs -> In b xs -> R a b -> R' a b) ->
  StronglySorted R xs -> StronglySorted R' xs.
Proof.
  intros W S. induction S as [|x xs S IH F]; constructor.
  - apply IH. intros a b Ha Hb. apply W; now right.
  - rewrite Forall_forall in *. intros y Hy. apply W; [now left | now right | now apply F].
Qed.

Lemma StronglySorted_strict {A B} (time : A -> Z) (label : A -> B) (xs : list A) :
  NoDup (map label xs) ->
  (forall a b, In a xs -> In b xs -> time a = time b -> label a = label b) ->
  StronglySorted (fun a b => (time a <= time b)%Z) xs ->
  StronglySorted (fun a b => (time a < time b)%Z) xs.
Proof.
  intros D I S. induction S as [|x xs S IH F]; constructor.
  - apply IH; [now inversion D | intros a b Ha Hb; apply I; now right].
  - inversion D as [|? ? N _]; subst. rewrite Forall_forall in *. intros y Hy.
    specialize (F y Hy). simpl in F.
    destruct (Z.eq_dec (time x) (time y)) as [E | E]; [| lia].
    exfalso. apply N. rewrite (I x y) by (simpl; auto). now apply in_map.
Qed.

Lemma StronglySorted_suffix {A} (R : A -> A -> Prop) (xs ys : list A) :
  StronglySorted R (xs ++ ys) -> StronglySorted R ys.
Proof.
  induction xs as [|x xs IH]; simpl; [trivial |].
  intros S. inversion S; subst. now apply IH.
Qed.

Lemma slice_last_split {A} (n : nat) (xs : list A) :
  exists older,
    xs = older ++ slice_last n xs /\ length (slice_last n xs) = Nat.min n (length xs).
Proof.
  unfold slice_last. exists (firstn (length xs - n) xs). split.
  - now rewrite firstn_skipn.
  - rewrite length_skipn. lia.
Qed.

End JSFacts.

(* ================================================================== *)
(** ** The search filter *)
(* ================================================================== *)

Module SearchFilter.
Import JS Dashboard Spec JSFacts.
Local Open Scope string_scope.
Local Open Scope list_scope.

Section SearchFacts.
Variable Unicode_toLowerCase : string -> string.
#[local] Abbreviation matchesSearch := (Dashboard.matchesSearch Unicode_toLowerCase).
#[local] Abbreviation filteredLogs := (Dashboard.filteredLogs Unicode_toLowerCase).
#[local] Abbreviation searchHit := (Spec.searchHit Unicode_toLowerCase).

Lemma matchesSearch_spec (term : string) (log : LogData) :
  matchesSearch term log = true <-> searchHit term log.
Proof.
  unfold Dashboard.matchesSearch, Spec.searchHit, occursIn. cbv zeta.
  rewrite !orb_true_iff, !includes_spec. tauto.
Qed.

(** C2, as the code has it.  With the empty term [filteredLogs] is the
    input itself; with any other term it is the input filtered, in order,
    by a test that holds exactly of the records for which the lower-cased
    term occurs in the lower-cased [mc_number], [load_id], [outcome] or
    [sentiment], whatever the engine's case mapping is. *)
Theorem filteredLogs_spec (logs : list LogData) (term : string) :
  exists keep : LogData -> bool,
    (forall log, keep log = true <-> searchHit term log) /\
    filteredLogs logs term =
      match term with
      | EmptyString => logs
      | String _ _ => filter keep logs
      end.
Proof.
  exists (matchesSearch term). split.
  - intros log. apply matchesSearch_spec.
  - unfold Dashboard.filteredLogs. destruct term; reflexivity.
Qed.

(** C9. Filtering a filtered result again by the same term changes nothing. *)
Theorem filteredLogs_idempotent (logs : list LogData) (term : string) :
  filteredLogs (filteredLogs logs term) term = filteredLogs logs term.
Proof.
  unfold Dashboard.filteredLogs. destruct (falsy term); [reflexivity |].
  apply filter_idempotent.
Qed.

End SearchFacts.

(** On ASCII text the case mapping is the ASCII one, whatever the engine. *)
Example toLowerCase_ascii (Unicode_toLowerCase : string -> string) :
  toLowerCase Unicode_toLowerCase "MC-123 Acc_Z" = "mc-123 acc_z".
Proof. reflexivity. Qed.

(** The engine of the examples on two Greek strings: the sigma that ends a
    word becomes a final sigma, a lone one a medial sigma. *)
Example toLowerCase_sigma :
  toLowerCase Unicode_sample "ΟΔΟΣ" = "οδος" /\
  toLowerCase Unicode_sample "Σ" = "σ".
Proof. split; reflexivity. Qed.

(** C2, as stated, fails: the term "Σ" occurs, as it is written, in the
    [mc_number] of the record, and the record is dropped, because the
    lower-cased field ends in a final sigma and the lower-cased term is a
    medial one. *)
Lemma filteredLogs_final_sigma :
  occursIn "Σ" (mc_number Samples.sigmaRecord) /\
  filteredLogs Unicode_sample [Samples.sigmaRecord] "Σ" = [].
Proof.
  split; [| reflexivity]. now exists "ΟΔΟ", "".
Qed.

(** A term in capitals finds the accepted records; a term that occurs in
    [mc_number] finds a record whatever its sentiment. *)
Example filteredLogs_ACC :
  map id (filteredLogs Unicode_sample Samples.scenarioA "ACC") = ["1"; "2"].
Proof. reflexivity. Qed.

Example filteredLogs_mc123 :
  map id (filteredLogs Unicode_sample Samples.scenarioA "mc123") = ["1"; "2"; "3"].
Proof. reflexivity. Qed.

End SearchFilter.

(* ================================================================== *)
(** ** The summary statistics *)
(* ================================================================== *)

Module Summary.
Import JS Dashboard Spec JSFacts Samples.
Local Open Scope string_scope.
Local Open Scope list_scope.

Lemma is_accepted (o : Outcome) : (Outcome_str o =? "accepted") = Outcome_eqb o Accepted.
Proof. destruct o; reflexivity. Qed.

Lemma is_declined (o : Outcome) : (Outcome_str o =? "declined") = Outcome_eqb o Declined.
Proof. destruct o; reflexivity. Qed.

Lemma accepted_count (logs : list LogData) :
  accepted (stats logs) = count (fun log => Outcome_eqb (outcome log) Accepted) logs.
Proof.
  unfold stats. destruct logs as [|log logs]; [reflexivity |].
  cbn [length Nat.eqb accepted]. rewrite length_filter_count.
  apply count_ext. intros x. apply is_accepted.
Qed.

Lemma declined_count (logs : list LogData) :
  declined (stats logs) = count (fun log => Outcome_eqb (outcome log) Declined) logs.
Proof.
  unfold stats. destruct logs as [|log logs]; [reflexivity |].
  cbn [length Nat.eqb declined]. rewrite length_filter_count.
  apply count_ext. intros x. apply is_declined.
Qed.

Lemma avgFinalRate_nonempty (logs : list LogData) :
  logs <> [] -> avgFinalRate (stats logs) = mean (map final_rate logs).
Proof.
  intros H. unfold stats, mean, total. destruct logs as [|log logs]; [congruence |].
  cbn [length Nat.eqb avgFinalRate]. rewrite fold_left_add_map, length_map. reflexivity.
Qed.

Lemma avgRounds_nonempty (logs : list LogData) :
  logs <> [] -> avgRounds (stats logs) = mean (map rounds logs).
Proof.
  intros H. unfold stats, mean, total. destruct logs as [|log logs]; [congruence |].
  cbn [length Nat.eqb avgRounds]. rewrite fold_left_add_map, length_map. reflexivity.
Qed.

(** C4. On a non-empty sequence [stats] counts the accepted and the declined
    records and averages [final_rate] and [rounds] over all records; three
    records with outcomes accepted, accepted, declined and rates 100, 200,
    300 give an average rate of 200, two accepted and one declined. *)
Theorem stats_nonempty (logs : list LogData) :
  logs <> [] ->
  accepted (stats logs) = count (fun log => Outcome_eqb (outcome log) Accepted) logs /\
  declined (stats logs) = count (fun log => Outcome_eqb (outcome log) Declined) logs /\
  avgFinalRate (stats logs) = mean (map final_rate logs) /\
  avgRounds (stats logs) = mean (map rounds logs) /\
  (map outcome logs = [Accepted; Accepted; Declined] ->
   map final_rate logs = [100; 200; 300]%float ->
   avgFinalRate (stats logs) = 200%float /\
   accepted (stats logs) = 2 /\
   declined (stats logs) = 1).
Proof.
  intros H.
  pose proof (accepted_count logs) as Ha.
  pose proof (declined_count logs) as Hd.
  pose proof (avgFinalRate_nonempty logs H) as Hr.
  split; [exact Ha |]. split; [exact Hd |]. split; [exact Hr |].
  split; [now apply avgRounds_nonempty |].
  intros Eo Er. split; [| split].
  - rewrite Hr, Er. reflexivity.
  - rewrite Ha, (count_map outcome (fun o => Outcome_eqb o Accepted)), Eo. reflexivity.
  - rewrite Hd, (count_map outcome (fun o => Outcome_eqb o Declined)), Eo. reflexivity.
Qed.

Lemma stats_nonempty_witness :
  avgFinalRate (stats scenarioA) = 200%float /\
  accepted (stats scenarioA) = 2 /\
  declined (stats scenarioA) = 1.
Proof.
  assert (H : scenarioA <> []) by discriminate.
  destruct (stats_nonempty scenarioA H) as (_ & _ & _ & _ & A).
  apply A; reflexivity.
Defined.

(** C8. The accepted and the declined records together are at most all the
    records (also on the empty sequence, where both counts are 0). *)
Theorem accepted_declined_le_length (logs : list LogData) :
  accepted (stats logs) + declined (stats logs) <= length logs.
Proof.
  rewrite accepted_count, declined_count. apply two_counts_le.
  intros log. destruct (outcome log); simpl; congruence.
Qed.

(** C6, as the code has it.  The two counts do not depend on the order of the
    records; the two averages are a left-to-right floating-point sum over the
    length, so two orders of the same records give the same average whenever
    their left-to-right sums agree. *)
Theorem stats_permutation (logs logs' : list LogData) :
  Permutation logs logs' ->
  accepted (stats logs) = accepted (stats logs') /\
  declined (stats logs) = declined (stats logs') /\
  (total (map final_rate logs) = total (map final_rate logs') ->
   avgFinalRate (stats logs) = avgFinalRate (stats logs')) /\
  (total (map rounds logs) = total (map rounds logs') ->
   avgRounds (stats logs) = avgRounds (stats logs')).
Proof.
  intros P. pose proof (Permutation_length P) as L.
  rewrite !accepted_count, !declined_count.
  repeat split; try (apply count_Permutation; assumption).
  - intros E. destruct logs as [|x xs], logs' as [|y ys]; try discriminate L;
      [reflexivity |].
    rewrite !avgFinalRate_nonempty by discriminate. unfold mean.
    rewrite E, !length_map, L. reflexivity.
  - intros E. destruct logs as [|x xs], logs' as [|y ys]; try discriminate L;
      [reflexivity |].
    rewrite !avgRounds_nonempty by discriminate. unfold mean.
    rewrite E, !length_map, L. reflexivity.
Qed.

Lemma stats_permutation_witness :
  accepted (stats ratesAscending) = accepted (stats (rev ratesAscending)) /\
  declined (stats ratesAscending) = declined (stats (rev ratesAscending)).
Proof.
  destruct (stats_permutation ratesAscending (rev ratesAscending)
              (Permutation_rev ratesAscending)) as (A & D & _).
  exact (conj A D).
Defined.

(** C6, as stated, fails: the same three records in two orders have
    different average rates. *)
Lemma stats_order_dependent :
  Permutation ratesAscending (rev ratesAscending) /\
  avgFinalRate (stats ratesAscending) = 1983.1999999999998%float /\
  avgFinalRate (stats (rev ratesAscending)) = 1983.2%float /\
  stats ratesAscending <> stats (rev ratesAscending).
Proof.
  split; [apply Permutation_rev |].
  split; [vm_compute; reflexivity |].
  split; [vm_compute; reflexivity |].
  vm_compute. intros H. discriminate H.
Qed.

End Summary.

(* ================================================================== *)
(** ** The chart tables *)
(* ================================================================== *)

Module Charts.
Import JS Dashboard Spec JSFacts Samples.
Local Open Scope string_scope.
Local Open Scope list_scope.

Lemma Outcome_eqb_spec (a b : Outcome) : Outcome_eqb a b = true <-> a = b.
Proof. destruct a, b; simpl; split; congruence. Qed.

Lemma Outcome_str_eqb (a b : Outcome) : (Outcome_str a =? Outcome_str b) = Outcome_eqb a b.
Proof. destruct a, b; reflexivity. Qed.

(** No key of [outcomeCounts] or [sentimentCounts] is an array index, so
    [Object.entries] enumerates them in insertion order. *)
Lemma category_keys_not_indices (o : Outcome) (s : Sentiment) :
  isArrayIndex (Outcome_str o) = false /\ isArrayIndex (Sentiment_str s) = false.
Proof. destruct o, s; split; reflexivity. Qed.

Lemma sumValues_increment (acc : Obj nat) (k : string) :
  sumValues (set acc k (orZero (get acc k) + 1)) = sumValues acc + 1.
Proof.
  induction acc as [|[k0 v0] acc IH]; simpl; [reflexivity |].
  destruct (k0 =? k); simpl; [lia | rewrite IH; lia].
Qed.

Lemma sumValues_countBy (key : LogData -> string) (logs : list LogData) :
  sumValues (countBy key logs) = length logs.
Proof.
  unfold countBy.
  enough (G : forall acc,
             sumValues (fold_left (fun acc log =>
                          set acc (key log) (orZero (get acc (key log)) + 1)) logs acc)
             = sumValues acc + length logs) by apply (G []).
  induction logs as [|log logs IH]; intros acc; simpl; [lia |].
  rewrite IH, sumValues_increment. lia.
Qed.

Lemma totalCount_entries (f : string * nat -> ChartEntry) (acc : Obj nat) :
  (forall kv, value (f kv) = snd kv) -> totalCount (map f acc) = sumValues acc.
Proof.
  intros H. induction acc as [|kv acc IH]; simpl; [reflexivity |].
  now rewrite H, IH.
Qed.

Lemma countBy_entries (key : LogData -> string) (logs : list LogData) :
  countBy key logs =
  map (fun k => (k, count (fun log => key log =? k) logs))
      (firstOccurrences String.eqb (map key logs)).
Proof.
  pose (upd := fun (ov : option nat) (_ : LogData) => orZero ov + 1).
  change (countBy key logs) with (fold_left (groupStep key upd) logs []).
  assert (K : map fst (fold_left (groupStep key upd) logs []) =
              firstOccurrences String.eqb (map key logs))
    by apply (group_keys key upd logs []).
  rewrite <- K. apply entries_of_get; [apply group_NoDup |].
  intros k v. rewrite group_get. simpl get. unfold upd. rewrite count_fold.
  rewrite <- length_filter_count.
  destruct (filter (fun x => key x =? k) logs); [discriminate |].
  intros H. injection H as <-. reflexivity.
Qed.

(** C3. [outcomeData] has one entry for each outcome that occurs in the
    input and none for the others, in the order in which the outcomes first
    occur; the count of an entry is the number of records with that outcome,
    and the counts add up to the number of records. *)
Theorem outcomeData_spec (logs : list LogData) :
  outcomeData logs =
    map (fun o => {| name := outcomeLabel o;
                     value := count (fun log => Outcome_eqb (outcome log) o) logs;
                     color := Some (outcomeColor o) |})
        (firstOccurrences Outcome_eqb (map outcome logs)) /\
  NoDup (firstOccurrences Outcome_eqb (map outcome logs)) /\
  (forall o, In o (firstOccurrences Outcome_eqb (map outcome logs)) <->
             exists log, In log logs /\ outcome log = o) /\
  totalCount (outcomeData logs) = length logs.
Proof.
  split; [| split; [| split]].
  - unfold outcomeData, outcomeCounts, entries. rewrite countBy_entries.
    rewrite <- (map_map outcome Outcome_str).
    unfold firstOccurrences at 1.
    rewrite (firsts_map Outcome_str Outcome_eqb String.eqb Outcome_str_eqb _ []).
    rewrite !map_map. apply map_ext. intros o. f_equal.
    + destruct o; reflexivity.
    + apply count_ext. intros log. apply Outcome_str_eqb.
    + destruct o; reflexivity.
  - apply (firstOccurrences_NoDup Outcome_eqb Outcome_eqb_spec).
  - intros o. rewrite (firstOccurrences_In Outcome_eqb Outcome_eqb_spec), in_map_iff.
    split; intros (log & H1 & H2); exists log; tauto.
  - unfold outcomeData, outcomeCounts, entries.
    rewrite totalCount_entries by (intros [k v]; reflexivity).
    apply sumValues_countBy.
Qed.

(** C7. On the empty sequence nothing fails: [stats] is all zeros and the
    three chart tables are empty. *)
Theorem empty_dataset (Date_parse : string -> option Z) :
  stats [] = {| accepted := 0; declined := 0; avgFinalRate := 0%float; avgRounds := 0%float |} /\
  chartData Date_parse [] =
    Some {| cd_outcomeData := []; cd_sentimentData := []; cd_trendData := [] |} /\
  outcomeData [] = [] /\
  sentimentData [] = [] /\
  trendData Date_parse [] = Some [].
Proof. repeat split. Qed.

End Charts.

(* ================================================================== *)
(** ** The daily rate trend *)
(* ================================================================== *)

Module DailyTrend.
Import JS Dashboard Spec JSFacts Samples.
Local Open Scope string_scope.
Local Open Scope list_scope.

Section TrendFacts.
Variable Date_parse : string -> option Z.

Lemma dailyRates_thrown (logs : list LogData) :
  fold_left (dailyRates_step Date_parse) logs None = None.
Proof. induction logs as [|log logs IH]; simpl; auto. Qed.

Lemma dailyRates_step_ok (acc : Obj Bucket.t) (log : LogData) (t : Z) :
  Date_parse (created_at log) = Some t ->
  dailyRates_step Date_parse (Some acc) log =
  Some (groupStep fst addRate acc (toISODate t, final_rate log)).
Proof.
  intros E. unfold dailyRates_step, groupStep. rewrite E. cbn [fst snd].
  destruct (get acc (toISODate t)) as [b|] eqn:G.
  - rewrite G. reflexivity.
  - rewrite get_set_same, set_set. reflexivity.
Qed.

Lemma dailyRates_grouped (logs : list LogData) (acc : Obj Bucket.t) :
  fold_left (dailyRates_step Date_parse) logs (Some acc) =
  match datedRates Date_parse logs with
  | None => None
  | Some pairs => Some (fold_left (groupStep fst addRate) pairs acc)
  end.
Proof.
  revert acc. induction logs as [|log logs IH]; intros acc; [reflexivity |].
  cbn [fold_left datedRates fold_right].
  destruct (Date_parse (created_at log)) as [t|] eqn:E.
  - rewrite (dailyRates_step_ok acc log t E), IH.
    fold (datedRates Date_parse logs).
    destruct (datedRates Date_parse logs); reflexivity.
  - unfold dailyRates_step at 2. rewrite E. apply dailyRates_thrown.
Qed.

Lemma addRate_fold (xs : list (string * float)) (b : Bucket.t) :
  fold_left (fun ob x => Some (addRate ob x)) xs (Some b) =
  Some {| Bucket.rates := Bucket.rates b ++ map snd xs; Bucket.date := Bucket.date b |}.
Proof.
  revert b. induction xs as [|x xs IH]; intros b; simpl.
  - rewrite app_nil_r. now destruct b.
  - rewrite IH. simpl. now rewrite <- app_assoc.
Qed.

Lemma buckets_spec (pairs : list (string * float)) :
  fold_left (groupStep fst addRate) pairs [] =
  map (fun d => (d, {| Bucket.rates := map snd (filter (fun x => fst x =? d) pairs);
                       Bucket.date := d |}))
      (firstOccurrences String.eqb (map fst pairs)).
Proof.
  assert (K : map fst (fold_left (groupStep fst addRate) pairs []) =
              firstOccurrences String.eqb (map fst pairs))
    by apply (group_keys fst addRate pairs []).
  rewrite <- K. apply entries_of_get; [apply group_NoDup |].
  intros k v. rewrite group_get. simpl get.
  destruct (filter (fun x => fst x =? k) pairs) as [|x xs] eqn:F; [discriminate |].
  assert (I : In x (filter (fun x => fst x =? k) pairs)) by (rewrite F; now left).
  apply filter_In in I. destruct I as [_ I]. apply String.eqb_eq in I.
  cbn [fold_left]. rewrite addRate_fold. simpl. intros H. injection H as <-.
  now rewrite I.
Qed.

Lemma datedRates_rates (logs : list LogData) (pairs : list (string * float)) (d : string) :
  datedRates Date_parse logs = Some pairs ->
  map snd (filter (fun x => fst x =? d) pairs) =
  map final_rate (filter (onDate Date_parse d) logs).
Proof.
  revert pairs. induction logs as [|log logs IH]; intros pairs; simpl.
  - intros H. injection H as <-. reflexivity.
  - unfold onDate at 1, dateOf.
    destruct (Date_parse (created_at log)) as [t|]; [| discriminate].
    fold (datedRates Date_parse logs).
    destruct (datedRates Date_parse logs) as [rest|]; [| discriminate].
    intros H. injection H as <-. simpl.
    destruct (toISODate t =? d); simpl; now rewrite (IH rest).
Qed.

Lemma datedRates_dates (logs : list LogData) (pairs : list (string * float)) (d : string) :
  datedRates Date_parse logs = Some pairs ->
  In d (map fst pairs) <-> exists log, In log logs /\ dateOf Date_parse log = Some d.
Proof.
  revert pairs. induction logs as [|log logs IH]; intros pairs; simpl.
  - intros H. injection H as <-. simpl. split; [tauto | intros (log & [] & _)].
  - fold (datedRates Date_parse logs).
    destruct (Date_parse (created_at log)) as [t|] eqn:E; [| discriminate].
    destruct (datedRates Date_parse logs) as [rest|]; [| discriminate].
    intros H. injection H as <-. simpl. rewrite (IH rest eq_refl). split.
    + intros [<- | (log' & I & D)].
      * exists log. split; [now left |]. unfold dateOf. now rewrite E.
      * exists log'. split; [now right | assumption].
    + intros (log' & [<- | I] & D).
      * left. unfold dateOf in D. rewrite E in D. simpl in D. congruence.
      * right. now exists log'.
Qed.

Lemma datesConform_dated (logs : list LogData) :
  datesConform Date_parse logs = true ->
  exists pairs,
    datedRates Date_parse logs = Some pairs /\
    forall d, In d (map fst pairs) ->
              exists t, d = toISODate t /\ Date_parse d = Some (msPerDay * Day t)%Z.
Proof.
  induction logs as [|log logs IH]; simpl.
  - intros _. exists []. split; [reflexivity | intros d []].
  - rewrite andb_true_iff. intros [C Cs]. destruct (IH Cs) as (rest & E & R).
    fold (datedRates Date_parse logs). rewrite E. unfold conforms in C.
    destruct (Date_parse (created_at log)) as [t|]; [| discriminate].
    exists ((toISODate t, final_rate log) :: rest). split; [reflexivity |].
    intros d [<- | I]; [| now apply R]. exists t. cbn [fst]. split; [reflexivity |].
    destruct (Date_parse (toISODate t)) as [t'|]; [| discriminate].
    apply Z.eqb_eq in C. now rewrite C.
Qed.

(** A [created_at] that is not a date makes [trendData] throw. *)
Lemma trendData_throws (logs : list LogData) (log : LogData) :
  In log logs -> Date_parse (created_at log) = None -> trendData Date_parse logs = None.
Proof.
  intros I E. unfold trendData, dailyRates. rewrite dailyRates_grouped.
  enough (G : datedRates Date_parse logs = None) by now rewrite G.
  induction logs as [|x xs IH]; [destruct I |]. simpl.
  fold (datedRates Date_parse xs). destruct I as [-> | I].
  - now rewrite E.
  - rewrite (IH I). now destruct (Date_parse (created_at x)).
Qed.

(** The whole computation, before the page keeps the last seven entries:
    one entry for each distinct date, with that day's average, in strictly
    ascending order of date. *)
Lemma trend_days (logs : list LogData) :
  datesConform Date_parse logs = true ->
  exists days : list TrendPoint,
    trendData Date_parse logs = Some (slice_last 7 days) /\
    NoDup (map date days) /\
    (forall d, In d (map date days) <->
               exists log, In log logs /\ dateOf Date_parse log = Some d) /\
    (forall p, In p days ->
               avgRate p = mean (map final_rate (filter (onDate Date_parse (date p)) logs))) /\
    StronglySorted (fun p q => dateLt Date_parse (date p) (date q)) days.
Proof.
  intros C. destruct (datesConform_dated logs C) as (pairs & E & R).
  set (point := fun d => {| date := d;
                            avgRate := average (map snd (filter (fun x => fst x =? d) pairs)) |}).
  set (firsts := firstOccurrences String.eqb (map fst pairs)).
  assert (T : trendData Date_parse logs =
              Some (slice_last 7 (sort (compareDates Date_parse) (map point firsts)))).
  { unfold trendData, dailyRates. rewrite dailyRates_grouped, E, buckets_spec.
    unfold values. rewrite !map_map. reflexivity. }
  pose proof (sort_Permutation (compareDates Date_parse) (map point firsts)) as P.
  assert (Dates : map date (map point firsts) = firsts)
    by (rewrite map_map; apply map_id).
  assert (Valid : forall p, In p (sort (compareDates Date_parse) (map point firsts)) ->
            exists t, date p = toISODate t /\
                      Date_parse (date p) = Some (msPerDay * Day t)%Z).
  { intros p I. apply (Permutation_in _ P) in I. apply in_map_iff in I.
    destruct I as (d & <- & I). simpl. apply R.
    apply (firstOccurrences_In String.eqb String.eqb_eq). exact I. }
  exists (sort (compareDates Date_parse) (map point firsts)).
  split; [exact T |]. split; [| split; [| split]].
  - apply (Permutation_NoDup (Permutation_map date (Permutation_sym P))).
    rewrite Dates. apply (firstOccurrences_NoDup String.eqb String.eqb_eq).
  - intros d. rewrite <- (datedRates_dates logs pairs d E).
    rewrite <- (firstOccurrences_In String.eqb String.eqb_eq (map fst pairs) d).
    fold firsts. rewrite <- Dates at 2. split; apply Permutation_in.
    + apply Permutation_map, P.
    + apply Permutation_map, Permutation_sym, P.
  - intros p I. apply (Permutation_in _ P) in I. apply in_map_iff in I.
    destruct I as (d & <- & _). simpl.
    rewrite <- (datedRates_rates logs pairs d E). reflexivity.
  - apply (StronglySorted_weaken (fun a b => (timeOf Date_parse a < timeOf Date_parse b)%Z)).
    { intros a b Ia Ib L. destruct (Valid a Ia) as (ta & _ & Ha).
      destruct (Valid b Ib) as (tb & _ & Hb). unfold timeOf in L.
      rewrite Ha, Hb in L. now exists (msPerDay * Day ta)%Z, (msPerDay * Day tb)%Z. }
    apply (StronglySorted_strict (timeOf Date_parse) date).
    + apply (Permutation_NoDup (Permutation_map date (Permutation_sym P))).
      rewrite Dates. apply (firstOccurrences_NoDup String.eqb String.eqb_eq).
    + intros a b Ia Ib L. destruct (Valid a Ia) as (ta & Da & Ha).
      destruct (Valid b Ib) as (tb & Db & Hb). unfold timeOf in L.
      rewrite Ha, Hb in L. rewrite Da, Db. unfold toISODate.
      apply Z.mul_reg_l in L; [now rewrite L | discriminate].
    + apply sort_sorted. intros a b Ia Ib.
      assert (Ia' : In a (sort (compareDates Date_parse) (map point firsts)))
        by apply (Permutation_in _ (Permutation_sym P) Ia).
      assert (Ib' : In b (sort (compareDates Date_parse) (map point firsts)))
        by apply (Permutation_in _ (Permutation_sym P) Ib).
      destruct (Valid a Ia') as (ta & _ & Ha). destruct (Valid b Ib') as (tb & _ & Hb).
      unfold compareDates, timeOf. now rewrite Ha, Hb.
Qed.

(** C1. When every [created_at] is a date, [trendData] is produced as
    follows: the records are grouped by the UTC calendar date of
    [created_at]; each date that occurs gets one entry, whose [avgRate] is
    the mean of [final_rate] over that date's records; the entries are in
    ascending order of date; the last seven are kept ([out]), all of them
    when there are at most seven.  Hence at most seven entries, in
    non-decreasing order of date. *)
Theorem trendData_spec (logs : list LogData) :
  datesConform Date_parse logs = true ->
  exists older out : list TrendPoint,
    trendData Date_parse logs = Some out /\
    NoDup (map date (older ++ out)) /\
    (forall d, In d (map date (older ++ out)) <->
               exists log, In log logs /\ dateOf Date_parse log = Some d) /\
    (forall p, In p (older ++ out) ->
               avgRate p = mean (map final_rate (filter (onDate Date_parse (date p)) logs))) /\
    StronglySorted (fun p q => dateLe Date_parse (date p) (date q)) (older ++ out) /\
    length out = Nat.min 7 (length (older ++ out)) /\
    (length (older ++ out) <= 7 -> older = []) /\
    length out <= 7 /\
    StronglySorted (fun p q => dateLe Date_parse (date p) (date q)) out.
Proof.
  intros C. destruct (trend_days logs C) as (days & T & D & I & M & S).
  destruct (slice_last_split 7 days) as (older & E & L).
  exists older, (slice_last 7 days). rewrite <- E.
  assert (S' : StronglySorted (fun p q => dateLe Date_parse (date p) (date q)) days).
  { apply (StronglySorted_weaken _ _ days) with (2 := S).
    intros a b _ _ (ta & tb & Ha & Hb & Lt). exists ta, tb. repeat split; auto. lia. }
  assert (Len : length days = length older + length (slice_last 7 days))
    by (rewrite E at 1; apply length_app).
  split; [exact T |]. split; [exact D |]. split; [exact I |]. split; [exact M |].
  split; [exact S' |]. split; [exact L |]. split; [| split].
  - intros Le. destruct older; [reflexivity | simpl in Len; lia].
  - lia.
  - apply (StronglySorted_suffix _ older). now rewrite <- E.
Qed.

(** C10. When every [created_at] is a date, the dates of [trendData] are
    pairwise distinct and strictly increasing.  The table of all the days
    ([older ++ out]) has exactly one entry for each date that occurs in the
    input, in strictly ascending order of date, and [trendData] is its last
    seven entries ([out]), all of them when there are at most seven. *)
Theorem trendData_dates_increasing (logs : list LogData) :
  datesConform Date_parse logs = true ->
  exists older out : list TrendPoint,
    trendData Date_parse logs = Some out /\
    NoDup (map date (older ++ out)) /\
    (forall d, In d (map date (older ++ out)) <->
               exists log, In log logs /\ dateOf Date_parse log = Some d) /\
    StronglySorted (fun p q => dateLt Date_parse (date p) (date q)) (older ++ out) /\
    length out = Nat.min 7 (length (older ++ out)) /\
    NoDup (map date out) /\
    StronglySorted (fun p q => dateLt Date_parse (date p) (date q)) out.
Proof.
  intros C. destruct (trend_days logs C) as (days & T & D & I & M & S).
  destruct (slice_last_split 7 days) as (older & E & L).
  exists older, (slice_last 7 days). rewrite <- E.
  split; [exact T |]. split; [exact D |]. split; [exact I |].
  split; [exact S |]. split; [exact L |]. split.
  - rewrite E, map_app in D. now apply NoDup_app_remove_l in D.
  - apply (StronglySorted_suffix _ older). now rewrite <- E.
Qed.

End TrendFacts.

(** Ten records on nine days: the seven most recent days, in order. *)
Example trendData_scenarioC :
  trendData Date_parse_iso scenarioC =
  Some [ {| date := "2024-01-02"; avgRate := 1750 |};
         {| date := "2024-01-03"; avgRate := 1900 |};
         {| date := "2024-01-04"; avgRate := 2100 |};
         {| date := "2024-01-06"; avgRate := 1700 |};
         {| date := "2024-01-07"; avgRate := 1600 |};
         {| date := "2024-01-10"; avgRate := 2200 |};
         {| date := "2024-01-15"; avgRate := 1900 |} ].
Proof. vm_compute. reflexivity. Qed.

(** A [created_at] that is not a date makes the whole of [chartData] throw. *)
Example chartData_invalid_date :
  chartData Date_parse_iso [record "1" Accepted Positive 1800 "yesterday"] = None.
Proof. vm_compute. reflexivity. Qed.

Lemma trendData_spec_witness :
  exists older out : list TrendPoint,
    trendData Date_parse_iso scenarioC = Some out /\
    NoDup (map date (older ++ out)) /\
    (forall d, In d (map date (older ++ out)) <->
               exists log, In log scenarioC /\ dateOf Date_parse_iso log = Some d) /\
    (forall p, In p (older ++ out) ->
               avgRate p =
               mean (map final_rate (filter (onDate Date_parse_iso (date p)) scenarioC))) /\
    StronglySorted (fun p q => dateLe Date_parse_iso (date p) (date q)) (older ++ out) /\
    length out = Nat.min 7 (length (older ++ out)) /\
    (length (older ++ out) <= 7 -> older = []) /\
    length out <= 7 /\
    StronglySorted (fun p q => dateLe Date_parse_iso (date p) (date q)) out.
Proof.
  apply (trendData_spec Date_parse_iso scenarioC). vm_compute. reflexivity.
Defined.

Lemma trendData_dates_increasing_witness :
  exists older out : list TrendPoint,
    trendData Date_parse_iso scenarioC = Some out /\
    NoDup (map date (older ++ out)) /\
    (forall d, In d (map date (older ++ out)) <->
               exists log, In log scenarioC /\ dateOf Date_parse_iso log = Some d) /\
    StronglySorted (fun p q => dateLt Date_parse_iso (date p) (date q)) (older ++ out) /\
    length out = Nat.min 7 (length (older ++ out)) /\
    NoDup (map date out) /\
    StronglySorted (fun p q => dateLt Date_parse_iso (date p) (date q)) out.
Proof.
  apply (trendData_dates_increasing Date_parse_iso scenarioC). vm_compute. reflexivity.
Defined.

End DailyTrend.

(* ================================================================== *)
(** ** The proxy route *)
(* ================================================================== *)

Module ProxySpec.
Import Proxy Samples.
Local Open Scope string_scope.
Local Open Scope Z_scope.

(** C5, as the code has it.  A 2xx upstream answer whose body is JSON is
    answered with that body and status 200; any other upstream status is
    relayed, with a message naming the status in place of the upstream
    body; the fixed 500 answer is sent exactly when the request fails or
    the body of a 2xx answer is not JSON. *)
Theorem handler_spec :
  (forall response data,
      ok response = true -> body response = Some data ->
      handler (Resolved response) = {| code := 200; payload := data |}) /\
  (forall response,
      ok response = false ->
      handler (Resolved response) =
        {| code := status response;
           payload :=
             JObj [("message",
                    JStr ("External API error: " ++ numberToString (status response)
                          ++ " " ++ statusText response))] |}) /\
  (forall upstream,
      handler upstream = failureReply <->
      upstream = Rejected \/
      exists response,
        upstream = Resolved response /\ ok response = true /\ body response = None).
Proof.
  split; [| split].
  - intros response data O B. unfold handler. now rewrite O, B.
  - intros response O. unfold handler. now rewrite O.
  - intros upstream. split.
    + destruct upstream as [|response]; [now left |]. unfold handler.
      destruct (ok response) eqn:O; simpl.
      * destruct (body response) as [data|] eqn:B.
        -- intros H. discriminate H.
        -- intros _. right. now exists response.
      * intros H. exfalso. unfold failureReply in H. injection H as _ H.
        discriminate H.
    + intros [-> | (response & -> & O & B)]; [reflexivity |].
      unfold handler. now rewrite O, B.
Qed.

(** C5, as stated, fails: the body of a 404 answer is not relayed, and a
    201 answer is relayed as a 200. *)
Lemma handler_not_verbatim :
  code (handler notFound) = 404 /\
  payload (handler notFound) = JObj [("message", JStr "External API error: 404 Not Found")] /\
  payload (handler notFound) <> JObj [("error", JStr "no logs")] /\
  code (handler created) = 200 /\
  payload (handler created) = JArr [].
Proof.
  repeat split; try reflexivity. intros H. discriminate H.
Qed.

End ProxySpec.

(* ================================================================== *)
(** ** More on the search filter *)
(* ================================================================== *)

Module SearchLaws.
Import JS Dashboard Spec Page PageSpec JSFacts Samples.
Local Open Scope string_scope.
Local Open Scope list_scope.

Lemma string_app_assoc (a b c : string) : ((a ++ b) ++ c = a ++ (b ++ c))%string.
Proof. induction a as [|x a IH]; simpl; [reflexivity | now rewrite IH]. Qed.

Lemma string_app_nil_r (a : string) : (a ++ "" = a)%string.
Proof. induction a as [|x a IH]; simpl; [reflexivity | now rewrite IH]. Qed.

Lemma chars_app (a b : string) : chars (a ++ b)%string = chars a ++ chars b.
Proof. induction a as [|x a IH]; simpl; [reflexivity | now rewrite IH]. Qed.

Lemma includes_empty (s : string) : includes s "" = true.
Proof. destruct s; reflexivity. Qed.

Lemma occursIn_empty (t : string) : occursIn t "" -> t = "".
Proof.
  intros (a & b & E). destruct a; [| discriminate E]. destruct t; [reflexivity | discriminate E].
Qed.

Lemma filter_all {A} (p : A -> bool) (xs : list A) :
  (forall x, p x = true) -> filter p xs = xs.
Proof.
  intros H. induction xs as [|x xs IH]; simpl; [reflexivity |]. now rewrite H, IH.
Qed.

Lemma lower_upper (c : ascii) : lowerAscii (upperAscii c) = lowerAscii c.
Proof. destruct c as [[] [] [] [] [] [] [] []]; reflexivity. Qed.

Lemma upperAscii_isAscii (c : ascii) : isAsciiChar (upperAscii c) = isAsciiChar c.
Proof. destruct c as [[] [] [] [] [] [] [] []]; reflexivity. Qed.

Lemma firstWidth_ascii (c : ascii) : isAsciiChar c = true -> firstWidth c = 1.
Proof.
  unfold isAsciiChar, firstWidth. intros H. apply Nat.ltb_lt in H.
  destruct (nat_of_ascii c <? 192)%nat eqn:E; [reflexivity |].
  apply Nat.ltb_ge in E. lia.
Qed.

Lemma startsAstral_ascii (c : ascii) (rest : string) :
  isAsciiChar c = true -> startsAstral (String c rest) = false.
Proof.
  unfold isAsciiChar, startsAstral. intros H. apply Nat.ltb_lt in H.
  apply Nat.leb_gt. lia.
Qed.

Lemma substring_whole (s : string) : substring 0 (String.length s) s = s.
Proof. induction s as [|c s IH]; simpl; [reflexivity | now rewrite IH]. Qed.

Lemma filter_narrow {A} (p q : A -> bool) (xs : list A) :
  (forall x, q x = true -> p x = true) -> filter q (filter p xs) = filter q xs.
Proof.
  intros H. induction xs as [|x xs IH]; simpl; [reflexivity |].
  destruct (p x) eqn:P; simpl; rewrite IH; [reflexivity |].
  destruct (q x) eqn:Q; [| reflexivity]. rewrite (H x Q) in P. discriminate P.
Qed.

Lemma filter_comm {A} (p q : A -> bool) (xs : list A) :
  filter q (filter p xs) = filter p (filter q xs).
Proof.
  induction xs as [|x xs IH]; simpl; [reflexivity |].
  destruct (p x) eqn:P, (q x) eqn:Q; simpl; rewrite ?P, ?Q, IH; reflexivity.
Qed.

Lemma includes_longer (s t t' : string) :
  occursIn t t' -> includes s t' = true -> includes s t = true.
Proof.
  intros (a & b & ->). rewrite !includes_spec. intros (pre & post & ->).
  exists (pre ++ a)%string, (b ++ post)%string.
  now rewrite !string_app_assoc.
Qed.

Lemma includes_chars (s t : string) (c : ascii) :
  includes s t = true -> In c (chars t) -> In c (chars s).
Proof.
  rewrite includes_spec. intros (pre & post & ->) I.
  rewrite !chars_app, !in_app_iff. tauto.
Qed.

Lemma NoDup_map_filter {A B} (f : A -> B) (p : A -> bool) (xs : list A) :
  NoDup (map f xs) -> NoDup (map f (filter p xs)).
Proof.
  induction xs as [|x xs IH]; simpl; [trivial |].
  intros D. inversion D as [|? ? N D']; subst.
  destruct (p x); simpl; [| now apply IH].
  constructor; [| now apply IH].
  intros I. apply N. apply in_map_iff in I. destruct I as (y & E & I).
  apply filter_In in I. rewrite <- E. apply in_map. tauto.
Qed.

Section SearchLawsFacts.
Variable Unicode_toLowerCase : string -> string.
#[local] Abbreviation toLowerCase := (JS.toLowerCase Unicode_toLowerCase).
#[local] Abbreviation matchesSearch := (Dashboard.matchesSearch Unicode_toLowerCase).
#[local] Abbreviation filteredLogs := (Dashboard.filteredLogs Unicode_toLowerCase).

(** A term whose lower-case form is empty matches every record. *)
Lemma matchesSearch_empty (t : string) (log : LogData) :
  toLowerCase t = "" -> matchesSearch t log = true.
Proof.
  intros E. unfold Dashboard.matchesSearch. now rewrite E, includes_empty.
Qed.

Lemma filteredLogs_empty_lower (logs : list LogData) (t : string) :
  toLowerCase t = "" -> filteredLogs logs t = logs.
Proof.
  intros E. unfold Dashboard.filteredLogs. destruct (falsy t); [reflexivity |].
  apply filter_all. intros log. now apply matchesSearch_empty.
Qed.

(** [filteredLogs] sees the term only through its lower-case form. *)
Lemma filteredLogs_lower (logs : list LogData) (t1 t2 : string) :
  toLowerCase t1 = toLowerCase t2 -> filteredLogs logs t1 = filteredLogs logs t2.
Proof.
  intros E. destruct t1 as [|c1 t1].
  - symmetry. rewrite (filteredLogs_empty_lower logs t2) by now rewrite <- E.
    reflexivity.
  - destruct t2 as [|c2 t2].
    + now rewrite (filteredLogs_empty_lower logs (String c1 t1)) by now rewrite E.
    + unfold Dashboard.filteredLogs. simpl falsy. cbv iota.
      apply filter_ext. intros log. unfold Dashboard.matchesSearch. now rewrite E.
Qed.

Lemma category_names (o : Outcome) (s : Sentiment) :
  forallb categoryChar (chars (toLowerCase (Outcome_str o))) = true /\
  forallb categoryChar (chars (toLowerCase (Sentiment_str s))) = true.
Proof. destruct o, s; split; reflexivity. Qed.

(** X1. Two terms that differ only in the case of their letters select the
    same records. *)
Theorem filteredLogs_case_insensitive (logs : list LogData) (t1 t2 : string) :
  toLowerCase t1 = toLowerCase t2 -> filteredLogs logs t1 = filteredLogs logs t2.
Proof. apply filteredLogs_lower. Qed.

(** X2. A term that extends another one (ignoring case) narrows its result:
    filtering the shorter term's result by the longer term is filtering the
    input by the longer term. *)
Theorem filteredLogs_narrow (logs : list LogData) (t t' : string) :
  occursIn (toLowerCase t) (toLowerCase t') ->
  filteredLogs (filteredLogs logs t) t' = filteredLogs logs t'.
Proof.
  intros O. unfold Dashboard.filteredLogs at 2. destruct (falsy t) eqn:F; [reflexivity |].
  unfold Dashboard.filteredLogs. destruct (falsy t') eqn:F'.
  - apply falsy_spec in F'. subst t'. apply occursIn_empty in O.
    apply filter_all. intros log. now apply matchesSearch_empty.
  - apply filter_narrow. intros log. unfold Dashboard.matchesSearch.
    rewrite !orb_true_iff.
    intros [[[H | H] | H] | H]; eauto using includes_longer.
Qed.

(** X3. Filtering by two terms one after the other gives the same records in
    either order of the terms. *)
Theorem filteredLogs_commute (logs : list LogData) (a b : string) :
  filteredLogs (filteredLogs logs a) b = filteredLogs (filteredLogs logs b) a.
Proof.
  unfold Dashboard.filteredLogs. destruct (falsy a), (falsy b); try reflexivity.
  apply filter_comm.
Qed.

(** X4. A term with a character other than a letter or an underscore (a
    digit, a space, a hyphen) never matches through [outcome] or
    [sentiment]: a record is kept only if [mc_number] or [load_id] contains
    the term.  So the label "no agreement", as the table shows it, does not
    find the records whose outcome is no_agreement. *)
Theorem symbols_match_identifiers_only (term : string) (log : LogData) :
  (exists c, In c (chars (toLowerCase term)) /\ categoryChar c = false) ->
  matchesSearch term log =
    includes (toLowerCase (mc_number log)) (toLowerCase term) ||
    includes (toLowerCase (load_id log)) (toLowerCase term).
Proof.
  intros (c & I & N). unfold Dashboard.matchesSearch.
  destruct (category_names (outcome log) (sentiment log)) as [Ho Hs].
  rewrite forallb_forall in Ho, Hs.
  assert (F : forall s, (forall x, In x (chars s) -> categoryChar x = true) ->
                        includes s (toLowerCase term) = false).
  { intros s H. destruct (includes s (toLowerCase term)) eqn:E; [| reflexivity].
    rewrite (H c (includes_chars _ _ c E I)) in N. discriminate N. }
  rewrite (F _ Ho), (F _ Hs), !orb_false_r. reflexivity.
Qed.

(** X5. When the ids of the records are pairwise distinct, so are the keys
    of the rows of the table, whatever the term. *)
Theorem row_keys_distinct (logs : list LogData) (term : string) :
  NoDup (map id logs) -> NoDup (map id (filteredLogs logs term)).
Proof.
  intros D. unfold Dashboard.filteredLogs. destruct (falsy term); [assumption |].
  now apply NoDup_map_filter.
Qed.

(** On ASCII text the tick formatter puts the first letter in upper case. *)
Lemma tickFormatter_ascii (Unicode_toUpperCase : string -> string) (c : ascii)
  (rest : string) :
  isAsciiChar c = true ->
  tickFormatter Unicode_toUpperCase (String c rest) = String (upperAscii c) rest.
Proof.
  intros A. unfold tickFormatter. rewrite (startsAstral_ascii c rest A).
  unfold charAt0, slice1. rewrite (firstWidth_ascii c A).
  cbn [substring String.length Nat.sub]. rewrite Nat.sub_0_r, substring_whole.
  assert (E : substring 0 0 rest = "") by (destruct rest; reflexivity).
  rewrite E. unfold toUpperCase. cbn [isAscii]. rewrite A. reflexivity.
Qed.

(** X6. The sentiment axis shows a name with its first letter in upper
    case; for a label of ASCII text, as the names of the sentiments are,
    typing the label as the axis shows it selects the same records as the
    label itself. *)
Theorem filteredLogs_tick_label (Unicode_toUpperCase : string -> string)
  (logs : list LogData) (label : string) :
  isAscii label = true ->
  filteredLogs logs (tickFormatter Unicode_toUpperCase label) = filteredLogs logs label.
Proof.
  intros A. destruct label as [|c rest]; [reflexivity |].
  cbn [isAscii] in A. apply andb_true_iff in A. destruct A as [Ac Ar].
  rewrite (tickFormatter_ascii Unicode_toUpperCase c rest Ac).
  apply filteredLogs_lower. unfold JS.toLowerCase. cbn [isAscii].
  rewrite upperAscii_isAscii, Ac, Ar. cbn [andb asciiLower].
  now rewrite lower_upper.
Qed.

End SearchLawsFacts.

Lemma filteredLogs_case_insensitive_witness :
  filteredLogs Unicode_sample scenarioA "ACC" = filteredLogs Unicode_sample scenarioA "acc".
Proof.
  apply (filteredLogs_case_insensitive Unicode_sample scenarioA "ACC" "acc"). reflexivity.
Defined.

Lemma filteredLogs_narrow_witness :
  filteredLogs Unicode_sample (filteredLogs Unicode_sample scenarioA "acc") "Accept" =
  filteredLogs Unicode_sample scenarioA "Accept".
Proof.
  apply (filteredLogs_narrow Unicode_sample scenarioA "acc" "Accept").
  exists "", "ept". reflexivity.
Defined.

Lemma symbols_match_identifiers_only_witness :
  matchesSearch Unicode_sample "no agreement"
    (record "4" NoAgreement Negative 1500 "2024-01-01") = false.
Proof.
  rewrite (symbols_match_identifiers_only Unicode_sample "no agreement"
             (record "4" NoAgreement Negative 1500 "2024-01-01")).
  - reflexivity.
  - exists " "%char. split; [simpl; tauto | reflexivity].
Defined.

Lemma row_keys_distinct_witness :
  NoDup (map id (filteredLogs Unicode_sample scenarioA "acc")).
Proof.
  apply (row_keys_distinct Unicode_sample scenarioA "acc").
  repeat constructor; simpl; intuition discriminate.
Defined.

(** On the ASCII label of the witness no Unicode table is consulted. *)
Lemma filteredLogs_tick_label_witness :
  tickFormatter asciiUpper "positive" = "Positive" /\
  filteredLogs Unicode_sample scenarioA (tickFormatter asciiUpper "positive") =
  filteredLogs Unicode_sample scenarioA "positive".
Proof.
  split; [reflexivity |].
  apply (filteredLogs_tick_label Unicode_sample asciiUpper scenarioA "positive").
  reflexivity.
Defined.

End SearchLaws.

(* ================================================================== *)
(** ** More on the summary and the distribution tables *)
(* ================================================================== *)

Module ChartLaws.
Import JS Dashboard Spec Page PageSpec JSFacts Samples.
Local Open Scope string_scope.
Local Open Scope list_scope.

Lemma Sentiment_eqb_spec (a b : Sentiment) : Sentiment_eqb a b = true <-> a = b.
Proof. destruct a, b; simpl; split; congruence. Qed.

Lemma Sentiment_str_eqb (a b : Sentiment) :
  (Sentiment_str a =? Sentiment_str b) = Sentiment_eqb a b.
Proof. destruct a, b; reflexivity. Qed.

Lemma outcomeLabel_eqb (a b : Outcome) :
  (outcomeLabel a =? outcomeLabel b) = Outcome_eqb a b.
Proof. destruct a, b; reflexivity. Qed.

Lemma outcomeData_entries (logs : list LogData) :
  outcomeData logs =
  map (outcomeEntry logs) (firstOccurrences Outcome_eqb (map outcome logs)).
Proof.
  unfold outcomeData, outcomeCounts, entries. rewrite Charts.countBy_entries.
  rewrite <- (map_map outcome Outcome_str). unfold firstOccurrences at 1.
  rewrite (firsts_map Outcome_str Outcome_eqb String.eqb Charts.Outcome_str_eqb _ []).
  rewrite !map_map. apply map_ext. intros o. unfold outcomeEntry. f_equal.
  - destruct o; reflexivity.
  - apply count_ext. intros log. apply Charts.Outcome_str_eqb.
  - destruct o; reflexivity.
Qed.

Lemma sentimentData_entries (logs : list LogData) :
  sentimentData logs =
  map (sentimentEntry logs) (firstOccurrences Sentiment_eqb (map sentiment logs)).
Proof.
  unfold sentimentData, sentimentCounts, entries. rewrite Charts.countBy_entries.
  rewrite <- (map_map sentiment Sentiment_str). unfold firstOccurrences at 1.
  rewrite (firsts_map Sentiment_str Sentiment_eqb String.eqb Sentiment_str_eqb _ []).
  rewrite !map_map. apply map_ext. intros s. unfold sentimentEntry. f_equal.
  - apply count_ext. intros log. apply Sentiment_str_eqb.
  - destruct s; reflexivity.
Qed.

Lemma count_le_length {A} (p : A -> bool) (xs : list A) : count p xs <= length xs.
Proof. induction xs as [|x xs IH]; simpl; [lia |]. destruct (p x); lia. Qed.

Lemma count_pos {A} (p : A -> bool) (xs : list A) (x : A) :
  In x xs -> p x = true -> 1 <= count p xs.
Proof.
  induction xs as [|y ys IH]; simpl; [tauto |].
  intros [-> | I] P; [rewrite P; lia |]. specialize (IH I P). destruct (p y); lia.
Qed.

Lemma count_none {A} (p : A -> bool) (xs : list A) :
  (forall x, In x xs -> p x = false) -> count p xs = 0.
Proof.
  induction xs as [|y ys IH]; simpl; [reflexivity |].
  intros H. rewrite (H y) by now left. apply IH. intros x I. apply H. now right.
Qed.

Lemma three_counts {A} (p q r : A -> bool) (xs : list A) :
  (forall x, (p x, q x, r x) = (true, false, false) \/
             (p x, q x, r x) = (false, true, false) \/
             (p x, q x, r x) = (false, false, true)) ->
  count p xs + count q xs + count r xs = length xs.
Proof.
  intros H. induction xs as [|x xs IH]; simpl; [reflexivity |].
  destruct (H x) as [E | [E | E]]; injection E as -> -> ->; lia.
Qed.

Lemma valueOf_entries {K} (label : K -> string) (eqb : K -> K -> bool)
  (entry : K -> ChartEntry) :
  (forall a b, eqb a b = true <-> a = b) ->
  (forall a b, (label a =? label b) = eqb a b) ->
  (forall k, name (entry k) = label k) ->
  forall (ks : list K) (k : K),
    valueOf (label k) (map entry ks) =
    if existsb (eqb k) ks then value (entry k) else 0.
Proof.
  intros S L N ks k. induction ks as [|a ks IH]; simpl; [reflexivity |].
  rewrite N, L. destruct (eqb a k) eqn:E.
  - apply S in E. subst a. now rewrite (proj2 (S k k) eq_refl).
  - destruct (eqb k a) eqn:E'; [| exact IH].
    apply S in E'. subst a. rewrite (proj2 (S k k) eq_refl) in E. discriminate E.
Qed.

Lemma valueOf_outcome (logs : list LogData) (o : Outcome) :
  valueOf (outcomeLabel o) (outcomeData logs) =
  count (fun log => Outcome_eqb (outcome log) o) logs.
Proof.
  rewrite outcomeData_entries.
  rewrite (valueOf_entries outcomeLabel Outcome_eqb (outcomeEntry logs)
             Charts.Outcome_eqb_spec outcomeLabel_eqb (fun k => eq_refl)).
  destruct (existsb _ _) eqn:E; [reflexivity |]. symmetry. apply count_none.
  intros log I. destruct (Outcome_eqb (outcome log) o) eqn:Q; [| reflexivity].
  apply Charts.Outcome_eqb_spec in Q. subst o.
  assert (X : existsb (Outcome_eqb (outcome log))
                (firstOccurrences Outcome_eqb (map outcome logs)) = true).
  { apply (existsb_eqb_In Outcome_eqb Charts.Outcome_eqb_spec).
    apply (firstOccurrences_In Outcome_eqb Charts.Outcome_eqb_spec).
    now apply in_map. }
  congruence.
Qed.

Lemma firstOccurrences_Permutation {A} (eqb : A -> A -> bool) (xs ys : list A) :
  (forall a b, eqb a b = true <-> a = b) ->
  Permutation xs ys ->
  Permutation (firstOccurrences eqb xs) (firstOccurrences eqb ys).
Proof.
  intros S P. apply NoDup_Permutation; try apply (firstOccurrences_NoDup eqb S).
  intros x. rewrite !(firstOccurrences_In eqb S).
  split; apply Permutation_in; [assumption | now apply Permutation_sym].
Qed.

(** X7. [sentimentData] has one entry for each sentiment that occurs, in
    the order in which the sentiments first occur, named by the sentiment,
    with the number of records of that sentiment and its colour; the counts
    add up to the number of records. *)
Theorem sentimentData_spec (logs : list LogData) :
  sentimentData logs =
    map (fun s => {| name := Sentiment_str s;
                     value := count (fun log => Sentiment_eqb (sentiment log) s) logs;
                     color := Some (sentimentColor s) |})
        (firstOccurrences Sentiment_eqb (map sentiment logs)) /\
  NoDup (firstOccurrences Sentiment_eqb (map sentiment logs)) /\
  (forall s, In s (firstOccurrences Sentiment_eqb (map sentiment logs)) <->
             exists log, In log logs /\ sentiment log = s) /\
  totalCount (sentimentData logs) = length logs.
Proof.
  split; [apply sentimentData_entries |]. split; [| split].
  - apply (firstOccurrences_NoDup Sentiment_eqb Sentiment_eqb_spec).
  - intros s. rewrite (firstOccurrences_In Sentiment_eqb Sentiment_eqb_spec), in_map_iff.
    split; intros (log & H1 & H2); exists log; tauto.
  - unfold sentimentData, sentimentCounts, entries.
    rewrite Charts.totalCount_entries by (intros [k v]; reflexivity).
    apply Charts.sumValues_countBy.
Qed.

(** X8. The pie chart and the summary cards agree: the count the outcome
    table shows for "accepted" (0 when it has no such entry) is
    [stats.accepted], the one for "declined" is [stats.declined], and the
    one for "no agreement" is the rest of the records. *)
Theorem outcomeData_agrees_with_stats (logs : list LogData) :
  valueOf "accepted" (outcomeData logs) = accepted (stats logs) /\
  valueOf "declined" (outcomeData logs) = declined (stats logs) /\
  valueOf "no agreement" (outcomeData logs) =
    length logs - accepted (stats logs) - declined (stats logs).
Proof.
  rewrite Summary.accepted_count, Summary.declined_count.
  pose proof (valueOf_outcome logs Accepted) as A.
  pose proof (valueOf_outcome logs Declined) as D.
  pose proof (valueOf_outcome logs NoAgreement) as N.
  simpl outcomeLabel in *. rewrite A, D, N.
  pose proof (three_counts (fun log => Outcome_eqb (outcome log) Accepted)
                (fun log => Outcome_eqb (outcome log) Declined)
                (fun log => Outcome_eqb (outcome log) NoAgreement) logs) as T.
  rewrite <- T; [repeat split; lia |].
  intros log. destruct (outcome log); simpl; tauto.
Qed.

(** X9. The two distribution tables do not depend on the order of the
    records, up to the order of their entries. *)
Theorem distributions_permutation (logs logs' : list LogData) :
  Permutation logs logs' ->
  Permutation (outcomeData logs) (outcomeData logs') /\
  Permutation (sentimentData logs) (sentimentData logs').
Proof.
  intros P. rewrite !outcomeData_entries, !sentimentData_entries. split.
  - rewrite (map_ext (outcomeEntry logs) (outcomeEntry logs')).
    + apply Permutation_map, firstOccurrences_Permutation.
      * apply Charts.Outcome_eqb_spec.
      * now apply Permutation_map.
    + intros o. unfold outcomeEntry. f_equal. now apply count_Permutation.
  - rewrite (map_ext (sentimentEntry logs) (sentimentEntry logs')).
    + apply Permutation_map, firstOccurrences_Permutation.
      * apply Sentiment_eqb_spec.
      * now apply Permutation_map.
    + intros s. unfold sentimentEntry. f_equal. now apply count_Permutation.
Qed.

Lemma distributions_permutation_witness :
  Permutation (outcomeData scenarioA) (outcomeData (rev scenarioA)) /\
  Permutation (sentimentData scenarioA) (sentimentData (rev scenarioA)).
Proof.
  apply (distributions_permutation scenarioA (rev scenarioA)).
  apply Permutation_rev.
Defined.

(** X10. The outcome table has at most three entries, and every entry
    counts at least one record and at most all of them: no slice of the pie
    is empty. *)
Theorem outcomeData_bounds (logs : list LogData) :
  length (outcomeData logs) <= 3 /\
  forall e, In e (outcomeData logs) -> 1 <= value e <= length logs.
Proof.
  rewrite outcomeData_entries. split.
  - rewrite length_map.
    apply (NoDup_incl_length (l' := [Accepted; Declined; NoAgreement])).
    + apply (firstOccurrences_NoDup Outcome_eqb Charts.Outcome_eqb_spec).
    + intros o _. destruct o; simpl; tauto.
  - intros e I. apply in_map_iff in I. destruct I as (o & <- & I). simpl.
    apply (proj1 (firstOccurrences_In Outcome_eqb Charts.Outcome_eqb_spec _ _)) in I.
    apply in_map_iff in I. destruct I as (log & E & I). split.
    + apply (count_pos _ logs log I). rewrite E.
      now apply Charts.Outcome_eqb_spec.
    + apply count_le_length.
Qed.

End ChartLaws.

(* ================================================================== *)
(** ** More on [chartData] and the daily trend *)
(* ================================================================== *)

Module TrendLaws.
Import JS Dashboard Spec Page PageSpec JSFacts Samples.
Local Open Scope string_scope.
Local Open Scope list_scope.

Lemma StronglySorted_map {A B} (f : A -> B) (R : B -> B -> Prop) (xs : list A) :
  StronglySorted (fun a b => R (f a) (f b)) xs -> StronglySorted R (map f xs).
Proof.
  induction 1 as [|x xs S IH F]; simpl; constructor; [assumption |].
  rewrite Forall_forall in *. intros y I. apply in_map_iff in I.
  destruct I as (z & <- & I). now apply F.
Qed.

(** Two lists sorted strictly by the same order and with the same elements
    are the same list. *)
Lemma StronglySorted_unique {A} (R : A -> A -> Prop) (xs ys : list A) :
  (forall a b, R a b -> R b a -> False) ->
  StronglySorted R xs -> StronglySorted R ys ->
  (forall a, In a xs <-> In a ys) -> xs = ys.
Proof.
  intros Asym Sx. revert ys.
  induction Sx as [|x xs Sx IH Fx]; intros ys Sy E.
  - destruct ys as [|y ys]; [reflexivity |]. destruct (proj2 (E y)). now left.
  - destruct Sy as [|y ys Sy Fy]; [destruct (proj1 (E x)); now left |].
    rewrite Forall_forall in Fx, Fy.
    assert (x = y) as <-.
    { destruct (proj1 (E x) (or_introl eq_refl)) as [H | H]; [now symmetry |].
      destruct (proj2 (E y) (or_introl eq_refl)) as [H' | H']; [assumption |].
      destruct (Asym x y (Fx y H') (Fy x H)). }
    f_equal. apply IH; [assumption |]. intros a. split; intros I.
    + destruct (proj1 (E a) (or_intror I)) as [<- | H]; [| assumption].
      destruct (Asym x x (Fx x I) (Fx x I)).
    + destruct (proj2 (E a) (or_intror I)) as [<- | H]; [| assumption].
      destruct (Asym x x (Fy x I) (Fy x I)).
Qed.

Lemma slice_last_map {A B} (f : A -> B) (n : nat) (xs : list A) :
  map f (slice_last n xs) = slice_last n (map f xs).
Proof. unfold slice_last. now rewrite skipn_map, length_map. Qed.

Lemma firstOccurrences_constant (d : string) (xs : list string) :
  xs <> [] -> (forall x, In x xs -> x = d) ->
  firstOccurrences String.eqb xs = [d].
Proof.
  intros N H. destruct xs as [|x xs]; [congruence |].
  unfold firstOccurrences. simpl. rewrite (H x) by now left.
  assert (G : forall ys, (forall y, In y ys -> y = d) ->
                fold_left (fun seen k => if existsb (String.eqb k) seen then seen
                                         else seen ++ [k]) ys [d] = [d]).
  { induction ys as [|y ys IH]; intros Hy; simpl; [reflexivity |].
    rewrite (Hy y) by now left. rewrite String.eqb_refl. simpl.
    apply IH. intros z I. apply Hy. now right. }
  apply G. intros y I. apply H. now right.
Qed.

Section TrendLawsFacts.
Variable Date_parse : string -> option Z.

Lemma datedRates_None_iff (logs : list LogData) :
  datedRates Date_parse logs = None <->
  exists log, In log logs /\ Date_parse (created_at log) = None.
Proof.
  induction logs as [|log logs IH]; simpl.
  - split; [discriminate | intros (log & [] & _)].
  - fold (datedRates Date_parse logs).
    destruct (Date_parse (created_at log)) as [t|] eqn:E.
    + destruct (datedRates Date_parse logs) as [rest|].
      * split; [discriminate |]. intros (x & [<- | I] & N); [congruence |].
        assert (C : Some rest = None) by (apply IH; now exists x).
        discriminate C.
      * split; [| reflexivity]. intros _.
        destruct (proj1 IH eq_refl) as (x & I & N). exists x. split; [now right | assumption].
    + split; [| reflexivity]. intros _. exists log. split; [now left | assumption].
Qed.

Lemma trendData_unfold (logs : list LogData) (pairs : list (string * float)) :
  datedRates Date_parse logs = Some pairs ->
  trendData Date_parse logs =
  Some (slice_last 7
          (sort (compareDates Date_parse)
             (map (fun d => {| date := d;
                               avgRate := average (map snd (filter (fun x => fst x =? d) pairs)) |})
                  (firstOccurrences String.eqb (map fst pairs))))).
Proof.
  intros E. unfold trendData, dailyRates.
  rewrite DailyTrend.dailyRates_grouped, E, DailyTrend.buckets_spec.
  unfold values. rewrite !map_map. reflexivity.
Qed.

Lemma trendData_None_iff (logs : list LogData) :
  trendData Date_parse logs = None <->
  exists log, In log logs /\ Date_parse (created_at log) = None.
Proof.
  rewrite <- datedRates_None_iff.
  destruct (datedRates Date_parse logs) as [pairs|] eqn:E.
  - rewrite (trendData_unfold logs pairs E). split; discriminate.
  - unfold trendData, dailyRates. rewrite DailyTrend.dailyRates_grouped, E. tauto.
Qed.

Lemma datedRates_same_day (logs : list LogData) (d : string) :
  (forall log, In log logs -> dateOf Date_parse log = Some d) ->
  datedRates Date_parse logs = Some (map (fun log => (d, final_rate log)) logs).
Proof.
  induction logs as [|log logs IH]; intros H; simpl; [reflexivity |].
  fold (datedRates Date_parse logs).
  rewrite IH by (intros x I; apply H; now right).
  specialize (H log (or_introl eq_refl)). unfold dateOf in H.
  destruct (Date_parse (created_at log)) as [t|]; [| discriminate H].
  simpl in H. injection H as ->. reflexivity.
Qed.

Lemma datesConform_Permutation (logs logs' : list LogData) :
  Permutation logs logs' ->
  datesConform Date_parse logs = true -> datesConform Date_parse logs' = true.
Proof.
  intros P. unfold datesConform. rewrite !forallb_forall. intros H x I.
  apply H. apply (Permutation_in _ (Permutation_sym P) I).
Qed.

Lemma dateLt_asym (a b : string) :
  dateLt Date_parse a b -> dateLt Date_parse b a -> False.
Proof.
  intros (t1 & t2 & A & B & L) (t2' & t1' & B' & A' & L').
  rewrite A in A'. rewrite B in B'. injection A' as <-. injection B' as <-. lia.
Qed.

(** X11. [chartData] throws exactly when some record has a [created_at]
    that is not a date: one such record takes the outcome and the sentiment
    tables down together with the trend. *)
Theorem chartData_throws_iff (logs : list LogData) :
  chartData Date_parse logs = None <->
  exists log, In log logs /\ Date_parse (created_at log) = None.
Proof.
  unfold chartData. destruct logs as [|log logs]; simpl Nat.eqb; cbv iota.
  - split; [discriminate | intros (x & [] & _)].
  - rewrite <- trendData_None_iff.
    destruct (trendData Date_parse (log :: logs)); split; congruence.
Qed.

(** X12. When all the records fall on one UTC day, the trend is the single
    point of that day, and its average is the [avgFinalRate] of [stats]. *)
Theorem trendData_single_day (logs : list LogData) (d : string) :
  logs <> [] ->
  (forall log, In log logs -> dateOf Date_parse log = Some d) ->
  trendData Date_parse logs =
  Some [{| date := d; avgRate := avgFinalRate (stats logs) |}].
Proof.
  intros N H.
  rewrite (trendData_unfold logs _ (datedRates_same_day logs d H)).
  rewrite map_map. cbn [fst].
  rewrite (firstOccurrences_constant d).
  - cbn [map sort fold_right insert]. unfold slice_last. cbn [length Nat.sub skipn].
    do 2 f_equal. f_equal.
    rewrite Summary.avgFinalRate_nonempty by assumption.
    assert (F : filter (fun x : string * float => fst x =? d)
                  (map (fun log => (d, final_rate log)) logs)
                = map (fun log => (d, final_rate log)) logs).
    { clear. induction logs as [|x xs IH]; simpl; [reflexivity |].
      now rewrite String.eqb_refl, IH. }
    rewrite F, map_map. reflexivity.
  - destruct logs; [congruence | discriminate].
  - intros x I. apply in_map_iff in I. now destruct I as (log & <- & _).
Qed.

(** X13. The dates of the trend do not depend on the order of the records
    (the averages may, in their last bits). *)
Theorem trendData_dates_permutation (logs logs' : list LogData) :
  datesConform Date_parse logs = true ->
  Permutation logs logs' ->
  exists out out' : list TrendPoint,
    trendData Date_parse logs = Some out /\
    trendData Date_parse logs' = Some out' /\
    map date out = map date out'.
Proof.
  intros C P.
  destruct (DailyTrend.trend_days Date_parse logs C) as (days & T & _ & I & _ & S).
  destruct (DailyTrend.trend_days Date_parse logs' (datesConform_Permutation _ _ P C))
    as (days' & T' & _ & I' & _ & S').
  exists (slice_last 7 days), (slice_last 7 days').
  split; [exact T |]. split; [exact T' |].
  rewrite !slice_last_map. f_equal.
  apply (StronglySorted_unique (dateLt Date_parse)).
  - apply dateLt_asym.
  - now apply StronglySorted_map.
  - now apply StronglySorted_map.
  - intros d. rewrite I, I'. split; intros (log & L & D); exists log; split; auto.
    + apply (Permutation_in _ P L).
    + apply (Permutation_in _ (Permutation_sym P) L).
Qed.

End TrendLawsFacts.

Lemma trendData_single_day_witness :
  trendData Date_parse_iso scenarioDay =
  Some [{| date := "2024-01-15"; avgRate := avgFinalRate (stats scenarioDay) |}].
Proof.
  apply (trendData_single_day Date_parse_iso scenarioDay "2024-01-15").
  - discriminate.
  - intros log [<- | [<- | []]]; reflexivity.
Defined.

Lemma trendData_dates_permutation_witness :
  exists out out' : list TrendPoint,
    trendData Date_parse_iso scenarioC = Some out /\
    trendData Date_parse_iso (rev scenarioC) = Some out' /\
    map date out = map date out'.
Proof.
  apply (trendData_dates_permutation Date_parse_iso scenarioC (rev scenarioC)).
  - vm_compute. reflexivity.
  - apply Permutation_rev.
Defined.

End TrendLaws.

(* ================================================================== *)
(** ** More on the proxy route and the page's query *)
(* ================================================================== *)

Module ProxyLaws.
Import Proxy Page Samples.
Local Open Scope string_scope.
Local Open Scope Z_scope.

Lemma not_ok_range (response : Response) :
  ok response = false -> ~ (200 <= status response <= 299).
Proof. unfold ok. rewrite andb_false_iff, !Z.leb_gt. lia. Qed.

(** X14. Every answer of the route is of one of two kinds: status 200 with
    the JSON data of a 2xx upstream answer, or a status outside 200..299
    (500, or the upstream status) with an object that has the single member
    [message]. *)
Theorem handler_dichotomy (upstream : Upstream) :
  (exists response data,
      upstream = Resolved response /\ ok response = true /\
      body response = Some data /\
      handler upstream = {| code := 200; payload := data |}) \/
  (~ (200 <= code (handler upstream) <= 299) /\
   exists message, payload (handler upstream) = JObj [("message", JStr message)]).
Proof.
  destruct upstream as [|response]; simpl.
  - right. split; [lia | eauto].
  - destruct (ok response) eqn:O; simpl.
    + destruct (body response) as [data|] eqn:B.
      * left. now exists response, data.
      * right. split; [simpl; lia | simpl; eauto].
    + right. split; [now apply not_ok_range | eauto].
Qed.

(** X15. The page's own query and the route agree on success: [queryFn]
    returns [data] for an upstream answer exactly when the route answers it
    with status 200 and [data]. *)
Theorem queryFn_agrees_with_handler (upstream : Upstream) (data : Json) :
  queryFn upstream = inr data <->
  handler upstream = {| code := 200; payload := data |}.
Proof.
  destruct upstream as [|response]; simpl.
  - split; discriminate.
  - destruct (ok response) eqn:O; simpl.
    + destruct (body response) as [d|]; split; intros H;
        try discriminate H; injection H as <-; reflexivity.
    + split; [discriminate |]. intros H. injection H as S _.
      apply not_ok_range in O. lia.
Qed.

(** X16. A query sent through the route gets the data the direct query
    gets; when the direct query fails in any way, the query through the
    route fails with the HTTP error that names the status the route
    answered. *)
Theorem queryFn_through_proxy (upstream : Upstream) (reason : string) :
  match queryFn upstream with
  | inr data => queryFn (proxied upstream reason) = inr data
  | inl _ =>
      queryFn (proxied upstream reason) =
      inl (HttpError ("Failed to fetch logs: "
                      ++ numberToString (code (handler upstream)) ++ " " ++ reason))
  end.
Proof.
  destruct upstream as [|response]; [reflexivity |].
  unfold queryFn at 1. destruct (ok response) eqn:O; simpl negb; cbv iota.
  - destruct (body response) as [data|] eqn:B.
    + unfold proxied, handler. rewrite O, B. reflexivity.
    + unfold proxied, handler. rewrite O, B. reflexivity.
  - unfold proxied, handler, queryFn. rewrite O. simpl negb. cbv iota.
    cbn [status code statusText]. unfold ok at 1. cbn [status].
    fold (ok response). rewrite O. reflexivity.
Qed.

End ProxyLaws.

(* ================================================================== *)
(** ** The table under the charts *)
(* ================================================================== *)

Module TableView.
Import JS Dashboard Spec Page PageSpec JSFacts Samples.
Local Open Scope string_scope.
Local Open Scope list_scope.

Lemma filter_nil_iff {A} (p : A -> bool) (xs : list A) :
  filter p xs = [] <-> forall x, In x xs -> p x = false.
Proof.
  induction xs as [|x xs IH]; simpl; [tauto |]. destruct (p x) eqn:P.
  - split; [discriminate |]. intros H. rewrite (H x) in P by now left. discriminate P.
  - rewrite IH. split.
    + intros H y [<- | I]; auto.
    + intros H y I. apply H. now right.
Qed.

Section TableFacts.
Variable Unicode_toLowerCase : string -> string.
#[local] Abbreviation matchesSearch := (Dashboard.matchesSearch Unicode_toLowerCase).
#[local] Abbreviation filteredLogs := (Dashboard.filteredLogs Unicode_toLowerCase).
#[local] Abbreviation searchHit := (Spec.searchHit Unicode_toLowerCase).
#[local] Abbreviation tableBody := (Page.tableBody Unicode_toLowerCase).
#[local] Abbreviation footer := (Page.footer Unicode_toLowerCase).

Lemma filteredLogs_length (logs : list LogData) (term : string) :
  length (filteredLogs logs term) <= length logs.
Proof.
  unfold Dashboard.filteredLogs. destruct (falsy term); [lia | apply filter_length_le].
Qed.

(** X17. The table says "No logs available." exactly when there is no
    record and no search term, and "No logs found matching your search."
    exactly when there is a term that no record matches; otherwise it has
    one row for each record of [filteredLogs]. *)
Theorem tableBody_spec (logs : list LogData) (term : string) :
  (tableBody logs term = Message "No logs available." <-> logs = [] /\ term = "") /\
  (tableBody logs term = Message "No logs found matching your search." <->
     term <> "" /\ forall log, In log logs -> ~ searchHit term log) /\
  (filteredLogs logs term <> [] -> tableBody logs term = Rows (filteredLogs logs term)).
Proof.
  unfold Page.tableBody, Dashboard.filteredLogs.
  destruct term as [|c term]; simpl falsy; cbv iota.
  - destruct logs as [|log logs]; simpl; (split; [| split]).
    + tauto.
    + split; [discriminate | intros [H _]; now destruct H].
    + intros H. now destruct H.
    + split; [discriminate | intros [H _]; discriminate H].
    + split; [discriminate | intros [H _]; now destruct H].
    + reflexivity.
  - set (t := String c term).
    destruct (filter (matchesSearch t) logs) as [|x xs] eqn:F; simpl; (split; [| split]).
    + split; [discriminate | intros [_ H]; discriminate H].
    + split; [| reflexivity]. intros _. split; [discriminate |].
      intros log I H. apply SearchFilter.matchesSearch_spec in H.
      rewrite (proj1 (filter_nil_iff _ _) F log I) in H. discriminate H.
    + intros H. now destruct H.
    + split; [discriminate | intros [_ H]; discriminate H].
    + split; [discriminate |]. intros [_ H]. exfalso.
      assert (I : In x (filter (matchesSearch t) logs)) by (rewrite F; now left).
      apply filter_In in I. destruct I as [I M].
      apply (H x I). now apply SearchFilter.matchesSearch_spec.
    + reflexivity.
Qed.

(** X18. The footer is shown exactly when the table has rows; it counts all
    the rows, and its "Showing 1 to" figure is the smaller of that count
    and 50; Next is disabled exactly when the count is at most 50.  When
    more than 50 records match, the footer says 50 and enables Next, while
    the table still has a row for every match. *)
Theorem footer_spec (logs : list LogData) (term : string) :
  (footer logs term = None <-> filteredLogs logs term = []) /\
  (forall f, footer logs term = Some f ->
     tableBody logs term = Rows (filteredLogs logs term) /\
     total f = length (filteredLogs logs term) /\
     showingTo f = Nat.min (total f) 50 /\
     nextDisabled f = (total f <=? 50)%nat /\
     showingTo f <= 50 /\ showingTo f <= total f /\
     (nextDisabled f = true <-> total f <= 50) /\
     (50 < total f ->
      showingTo f = 50 /\ showingTo f < length (filteredLogs logs term))).
Proof.
  unfold Page.footer, Page.tableBody.
  destruct (filteredLogs logs term) as [|x xs] eqn:F.
  - simpl. split; [tauto | discriminate].
  - assert (P : 0 < length (x :: xs)) by (simpl; lia).
    remember (length (x :: xs)) as n eqn:N. clear N.
    destruct (0 <? n)%nat eqn:A; [| apply Nat.ltb_ge in A; lia].
    destruct (n =? 0)%nat eqn:B; [apply Nat.eqb_eq in B; lia |].
    split; [split; discriminate |]. intros f H. injection H as <-.
    cbn [total showingTo nextDisabled].
    split; [reflexivity |]. split; [reflexivity |].
    split; [reflexivity |]. split; [reflexivity |].
    split; [lia |]. split; [lia |]. split; [apply Nat.leb_le | lia].
Qed.

End TableFacts.

(** More than fifty matches: the footer says 50, the table has sixty rows;
    three matches: the footer says 3. *)
Example footer_sixty :
  footer Unicode_sample sixty "" =
    Some {| showingTo := 50; total := 60; nextDisabled := false |} /\
  (exists rows, tableBody Unicode_sample sixty "" = Rows rows /\ length rows = 60) /\
  footer Unicode_sample scenarioA "" =
    Some {| showingTo := 3; total := 3; nextDisabled := true |}.
Proof. split; [reflexivity |]. split; [| reflexivity]. eexists. split; reflexivity. Qed.

End TableView.
